(** * Venn transaction security detector: a shallow embedding of
      [DetectionService] (modules/detection-module/service.ts)

    The TypeScript class is rendered as Rocq functions over the records the
    service declares.  Conventions used throughout:

    - a JavaScript string is a [string]: a sequence of code units below 256
      (addresses, selectors and decimal strings are ASCII);
    - an optional field [f?: T] is an [option T]; [undefined] is [None];
    - a JavaScript number that the service only ever compares with an exactly
      representable integer constant is kept as the integer it denotes
      ([Z]); [NaN] is [None];
    - [ethers.BigNumber] is [Z]; [BigNumber.from] raises on a string that is
      neither decimal nor 0x-hexadecimal, which is kept as a thrown error;
    - an object used as a dictionary is an association list in insertion
      order, enumerated the way [Object.keys] enumerates it. *)

From Stdlib Require Import String Ascii List ZArith QArith Lia Bool Arith.
From Stdlib Require Import DecimalString.
From Stdlib Require DecimalPos.
Import ListNotations.
Local Open Scope string_scope.
Local Open Scope list_scope.
Local Open Scope Z_scope.

Set Implicit Arguments.
Set Warnings "-register-all".

(** ** Thrown errors *)

Module Exn.

Inductive error : Type :=
| InvalidBigNumber (s : string)   (* ethers: "invalid BigNumber string" *)
| TypeError (what : string)       (* property read on undefined *)
| OutOfFuel.                      (* not a JavaScript outcome: the bound of a
                                     recursion of the model was used up *)

Inductive result (A : Type) : Type :=
| Ok (a : A)
| Throw (e : error).

Arguments Ok {A} a.
Arguments Throw {A} e.

Definition bind {A B} (m : result A) (k : A -> result B) : result B :=
  match m with
  | Ok a => k a
  | Throw e => Throw e
  end.

Definition ret {A} (a : A) : result A := Ok a.

Definition returns {A} (m : result A) : bool :=
  match m with Ok _ => true | Throw _ => false end.

(** [forEach] / [for ... of] with a body that may throw and that updates
    an accumulator *)
Fixpoint foldM {A S} (f : S -> A -> result S) (l : list A) (s : S) : result S :=
  match l with
  | [] => Ok s
  | a :: l' => bind (f s a) (foldM f l')
  end.

(** [Array.prototype.some] with a predicate that may throw: stops at the
    first element on which the predicate holds *)
Fixpoint someM {A} (p : A -> result bool) (l : list A) : result bool :=
  match l with
  | [] => Ok false
  | a :: l' => bind (p a) (fun b => if b then Ok true else someM p l')
  end.

(** [Array.prototype.filter] with a predicate that may throw *)
Fixpoint filterM {A} (p : A -> result bool) (l : list A) : result (list A) :=
  match l with
  | [] => Ok []
  | a :: l' =>
      bind (p a) (fun b =>
      bind (filterM p l') (fun r => Ok (if b then a :: r else r)))
  end.

End Exn.

Import Exn.

Declare Scope exn_scope.
Delimit Scope exn_scope with exn.
Notation "x <- m ;; k" := (Exn.bind m (fun x => k))
  (at level 61, m at next level, right associativity) : exn_scope.
Local Open Scope exn_scope.

(** ** JavaScript strings *)

Module JsString.

Definition code (c : ascii) : N := N_of_ascii c.

Definition in_range (lo hi : N) (c : ascii) : bool :=
  (N.leb lo (code c) && N.leb (code c) hi)%bool.

(** [String.prototype.toLowerCase] on code units below 256: A-Z and the
    Latin-1 capitals (except the multiplication sign) move up by 32 *)
Definition lower_char (c : ascii) : ascii :=
  if in_range 65 90 c then ascii_of_N (code c + 32)
  else if (in_range 192 222 c && negb (N.eqb (code c) 215))%bool
       then ascii_of_N (code c + 32)
  else c.

Fixpoint toLowerCase (s : string) : string :=
  match s with
  | EmptyString => EmptyString
  | String c s' => String (lower_char c) (toLowerCase s')
  end.

Definition startsWith (s p : string) : bool := String.prefix p s.

(** [s.includes(sub)] *)
Definition includes (s sub : string) : bool :=
  match String.index 0 sub s with
  | Some _ => true
  | None => false
  end.

(** [s.substring(0, n)] *)
Definition substring0 (n : nat) (s : string) : string := String.substring 0 n s.

Fixpoint drop (n : nat) (s : string) : string :=
  match n, s with
  | O, _ => s
  | S n', String _ s' => drop n' s'
  | S _, EmptyString => EmptyString
  end.

(** [s.replace(pat, '')] with a string pattern: the first occurrence only,
    wherever it is *)
Fixpoint remove_first (pat s : string) : string :=
  if String.prefix pat s then drop (String.length pat) s
  else match s with
       | EmptyString => EmptyString
       | String c s' => String c (remove_first pat s')
       end.

(** a string in a boolean position: empty is falsy *)
Definition truthy (s : string) : bool :=
  match s with EmptyString => false | _ => true end.

Definition opt_truthy (o : option string) : bool :=
  match o with Some s => truthy s | None => false end.

(** [o?.startsWith(p)] in a boolean position *)
Definition opt_startsWith (o : option string) (p : string) : bool :=
  match o with Some s => startsWith s p | None => false end.

(** [o?.includes(p)] in a boolean position *)
Definition opt_includes (o : option string) (p : string) : bool :=
  match o with Some s => includes s p | None => false end.

(** [o || d] *)
Definition or_default (o : option string) (d : string) : string :=
  match o with
  | Some s => if truthy s then s else d
  | None => d
  end.

(** [o?.substring(0, 10) || ''] *)
Definition opt_selector (o : option string) : string :=
  match o with Some s => substring0 10 s | None => "" end.

Definition chars (s : string) : list ascii := list_ascii_of_string s.

(** [a === b] on optional strings *)
Definition opt_eqb (a b : option string) : bool :=
  match a, b with
  | Some x, Some y => String.eqb x y
  | None, None => true
  | _, _ => false
  end.

Definition mem (s : string) (l : list string) : bool :=
  existsb (String.eqb s) l.

End JsString.

(** ** JavaScript numbers read from strings *)

Module JsNumber.

Import JsString.

Definition is_space (c : ascii) : bool :=
  let n := code c in
  (in_range 9 13 c || N.eqb n 32 || N.eqb n 160)%bool.

Fixpoint skip_space (s : string) : string :=
  match s with
  | String c s' => if is_space c then skip_space s' else s
  | EmptyString => EmptyString
  end.

(** value of a digit in the given radix, if it is one *)
Definition digit (radix : Z) (c : ascii) : option Z :=
  let n := Z.of_N (code c) in
  let v :=
    if in_range 48 57 c then Some (n - 48)
    else if in_range 97 122 c then Some (n - 87)
    else if in_range 65 90 c then Some (n - 55)
    else None in
  match v with
  | Some d => if d <? radix then Some d else None
  | None => None
  end.

(** longest prefix of digits: the accumulated value, or [None] when there
    is no digit at all *)
Fixpoint digits (radix : Z) (acc : option Z) (s : string) : option Z :=
  match s with
  | EmptyString => acc
  | String c s' =>
      match digit radix c with
      | Some d =>
          digits radix (Some (match acc with Some a => a * radix + d | None => d end)) s'
      | None => acc
      end
  end.

Definition strip_sign (s : string) : bool * string :=
  match s with
  | String "-" s' => (true, s')
  | String "+" s' => (false, s')
  | _ => (false, s)
  end.

Definition has_0x (s : string) : bool :=
  (String.prefix "0x" s || String.prefix "0X" s)%bool.

Definition signed (neg : bool) (v : option Z) : option Z :=
  match v with
  | Some z => Some (if neg then - z else z)
  | None => None
  end.

(** [parseInt(s, 16)]: [None] is NaN *)
Definition parseInt16 (s : string) : option Z :=
  let '(neg, r) := strip_sign (skip_space s) in
  let r := if has_0x r then drop 2 r else r in
  signed neg (digits 16 None r).

(** [parseInt(s)]: radix 10 unless the string carries a 0x prefix *)
Definition parseInt (s : string) : option Z :=
  let '(neg, r) := strip_sign (skip_space s) in
  if has_0x r then signed neg (digits 16 None (drop 2 r))
  else signed neg (digits 10 None r).

(** [a || b] on numbers: NaN and 0 are falsy *)
Definition num_or (a b : option Z) : option Z :=
  match a with
  | Some 0 | None => b
  | Some _ => a
  end.

(** [a > k] and [a < k] against a constant: false on NaN *)
Definition gt (a : option Z) (k : Z) : bool :=
  match a with Some z => k <? z | None => false end.

Definition lt (a : option Z) (k : Z) : bool :=
  match a with Some z => z <? k | None => false end.

(** a number in a boolean position *)
Definition truthy (a : option Z) : bool :=
  match a with Some 0 | None => false | Some _ => true end.

End JsNumber.

(** ** ethers.BigNumber *)

Module BigNumber.

Import JsString.

Fixpoint all_digits (radix : Z) (s : string) : bool :=
  match s with
  | EmptyString => true
  | String c s' =>
      match JsNumber.digit radix c with
      | Some _ => all_digits radix s'
      | None => false
      end
  end.

Definition value_of (radix : Z) (s : string) : Z :=
  match JsNumber.digits radix None s with Some z => z | None => 0 end.

Definition unsigned_from (s : string) : option Z :=
  if (JsNumber.has_0x s && truthy (drop 2 s) && all_digits 16 (drop 2 s))%bool
  then Some (value_of 16 (drop 2 s))
  else if (truthy s && all_digits 10 s)%bool then Some (value_of 10 s)
  else None.

(** [ethers.BigNumber.from(s)] for a string argument (ethers v5): accepts
    /^-?0x[0-9a-f]+$/i and /^-?[0-9]+$/, raises on anything else *)
Definition from (s : string) : result Z :=
  let '(neg, r) :=
    match s with
    | String "-" s' => (true, s')
    | _ => (false, s)
    end in
  match unsigned_from r with
  | Some z => Ok (if neg then - z else z)
  | None => Throw (InvalidBigNumber s)
  end.

(** [ethers.utils.parseEther(n)] for a whole number of ether *)
Definition parseEther (n : Z) : Z := n * 10 ^ 18.

(** [a.mul(n).div(d)]: bn.js division truncates towards zero *)
Definition mul_div (a n d : Z) : Z := Z.quot (a * n) d.

End BigNumber.

(** ** Objects used as dictionaries *)

Module JsObject.

Section Dict.

Variable V : Type.

(** entries in insertion order; the keys are addresses, single characters
    or fixed names, never the name of a property that every object inherits
    ([constructor], [toString], ...) *)
Definition t := list (string * V).

Definition empty : t := [].

Fixpoint get (k : string) (o : t) : option V :=
  match o with
  | [] => None
  | (k', v) :: o' => if String.eqb k k' then Some v else get k o'
  end.

Definition has (k : string) (o : t) : bool :=
  match get k o with Some _ => true | None => false end.

(** [o[k] = v]: an existing key keeps its place *)
Fixpoint set (k : string) (v : V) (o : t) : t :=
  match o with
  | [] => [(k, v)]
  | (k', v') :: o' =>
      if String.eqb k k' then (k', v) :: o' else (k', v') :: set k v o'
  end.

End Dict.

(** A key is an array index when it is the canonical decimal form of an
    integer below 2^32 - 1; such keys are enumerated first, ascending. *)
Definition array_index (k : string) : option Z :=
  match k with
  | EmptyString => None
  | String c rest =>
      if (BigNumber.all_digits 10 k
          && (negb (Ascii.eqb c "0") || String.eqb rest ""))%bool
      then let v := BigNumber.value_of 10 k in
           if v <=? 4294967294 then Some v else None
      else None
  end.

Fixpoint insert_sorted (x : Z * string) (l : list (Z * string)) : list (Z * string) :=
  match l with
  | [] => [x]
  | y :: l' => if fst x <? fst y then x :: l else y :: insert_sorted x l'
  end.

Definition sort_indices (l : list (Z * string)) : list (Z * string) :=
  fold_right insert_sorted [] l.

Fixpoint index_keys (ks : list string) : list (Z * string) :=
  match ks with
  | [] => []
  | k :: ks' =>
      match array_index k with
      | Some n => (n, k) :: index_keys ks'
      | None => index_keys ks'
      end
  end.

Definition is_index (k : string) : bool :=
  match array_index k with Some _ => true | None => false end.

(** the order of [Object.keys], [Object.values] and [for ... in] *)
Definition enumerate (ks : list string) : list string :=
  map snd (sort_indices (index_keys ks)) ++ filter (fun k => negb (is_index k)) ks.

Definition keys {V} (o : t V) : list string := enumerate (map fst o).

Definition values {V} (o : t V) : list V :=
  flat_map (fun k => match get k o with Some v => [v] | None => [] end) (keys o).

End JsObject.

(** ** Values reported in a finding's [details] *)

Inductive JSON : Type :=
| JUndefined
| JBool (b : bool)
| JInt (z : Z)
| JNum (q : Q)            (* the double nearest to a quotient of two counts *)
| JNaN
| JStr (s : string)
| JPercent (q : Q)        (* the template string `${q}%` of a number q *)
| JArr (items : list JSON)
| JObj (fields : list (string * JSON)).

Definition Details := JsObject.t JSON.

Definition jstrings (l : list string) : JSON := JArr (map JStr l).

Definition Z_to_string (z : Z) : string := NilZero.string_of_int (Z.to_int z).

(** ** The trace data model *)

(** an entry of [calls]; nested calls have the same shape *)
Inductive CallRecord : Type :=
  mkCall {
      call_from : string;
      call_to : string;
      call_input : option string;
      call_output : option string;
      call_value : option string;
      call_gasUsed : option string;
      call_calls : option (list CallRecord)
    }.

Record Log : Type :=
  mkLog {
      log_topics : list string;
      log_address : string
    }.

(** A field of an account snapshot: a string (balance, code), a number
    (nonce) or a slot map (storage).  Two snapshots never share an object, so
    two slot maps are never [===]. *)
Inductive StateValue : Type :=
| SVString (s : string)
| SVNumber (n : Z)
| SVSlots (slots : JsObject.t string).

Definition AccountState := JsObject.t StateValue.
Definition WorldState := JsObject.t AccountState.

Record TransactionTrace : Type :=
  mkTrace {
      from : string;
      to : string;
      input : option string;
      output : option string;
      value : option string;
      gas : option string;
      gasUsed : option string;
      transactionHash : option string;
      logs : option (list Log);
      calls : option (list CallRecord);
      pre : option WorldState;
      post : option WorldState
    }.

(** [additionalData] is declared [any]; each key the service reads is given
    the type its callers supply. *)
Record AuxiliaryContext : Type :=
  mkAux {
      senderType : option string;
      testName : option string;
      detectorName : option string;
      signaturesRequired : option Z;
      signaturesProvided : option Z;
      validatorsRequired : option Z;
      validatorsConfirmed : option Z;
      sourceChainId : option Z;
      destinationChainId : option Z;
      operationType : option string;
      contractsVerified : option bool;
      previouslyExecuted : option bool;
      messageTx : option string;
      originalChainId : option Z;
      currentChain : option Z;
      originalMessage : option string;
      alteredMessage : option string;
      sourcePrice : option string;
      destinationPrice : option string;
      sourceTotalLocked : option string;
      destinationTotalMinted : option string
    }.

(** [{}] *)
Definition noAux : AuxiliaryContext :=
  mkAux None None None None None None None None None None None None None
        None None None None None None None None.

Record Transaction : Type :=
  mkTransaction {
      id : string;
      chainId : string;
      protocolAddress : string;
      protocolName : string;
      trace : TransactionTrace;
      additionalData : option AuxiliaryContext
    }.

Record DetectionResult : Type :=
  mkResult {
      detected : bool;
      message : string;
      details : Details;
      type : option string
    }.

Record DetectionResponse : Type :=
  mkResponse {
      requestId : string;
      resp_chainId : option Z;
      resp_protocolAddress : string;
      resp_protocolName : string;
      resp_message : string;
      resp_detected : bool;
      detectionDetails : JsObject.t Details
    }.

(** Modelled from the spec: the request DTO [DetectionRequest]
    (dtos/requests/detect-request is not among the sources).  It carries the
    request identity and a Trace; the fields are those
    [DetectionService.detect] reads, typed as its callers supply them. *)
Record DetectionRequest : Type :=
  mkRequest {
      req_id : option string;
      req_detectorName : option string;
      req_chainId : Z;
      req_protocolAddress : option string;
      req_protocolName : option string;
      req_trace : TransactionTrace;
      req_additionalData : option AuxiliaryContext
    }.

(** ** The service and its tables *)

Record Thresholds : Type :=
  mkThresholds {
      highValueThreshold : Z;
      suspiciousGasRatio : Q;
      minCallDepth : Z;
      maxReentrancyDepth : nat;
      minValidatorCount : Z;
      priceDeviationThreshold : Q
    }.

Record DetectionService : Type :=
  mkService {
      blacklistedAddresses : list string;
      phishingSignatures : list string;
      poisoningPatterns : list string;
      commonSignatures : JsObject.t string;
      governanceSignatures : list string;
      oracleSignatures : list string;
      bridgeSignatures : list string;
      trustedAddresses : list string;
      thresholds : Thresholds
    }.

(** [new DetectionService()] *)
Definition new_DetectionService : DetectionService :=
  {| blacklistedAddresses :=
       [ "0x4d90e2fc6dd6c1e0a45e15a535d89ecbe11da766";
         "0xbad0000000000000000000000000000000000bad";
         "0x1234000000000000000000000000000000005678" ];
     phishingSignatures := [ "0x42842e0e"; "0xc3cda520" ];
     poisoningPatterns := [ "0x47e7ef24"; "0xb88d4fde" ];
     commonSignatures :=
       [ ("transfer", "0xa9059cbb"); ("transferFrom", "0x23b872dd");
         ("approve", "0x095ea7b3"); ("mint", "0x40c10f19");
         ("burn", "0x42966c68") ];
     governanceSignatures := [ "0xda95691a"; "0x56781388"; "0x0825f38f"; "0x5c19a95c" ];
     oracleSignatures := [ "0x8c0b4dad"; "0x50d25bcd"; "0x0dfe1681" ];
     bridgeSignatures := [ "0x89afcb44"; "0x6e553f65"; "0xc3805300"; "0xa2e62045" ];
     trustedAddresses :=
       [ "0xd8dA6BF26964aF9D7eEd9e03E53415D37aA96045";
         "0xA2025B15a1757311bfD68cb14eaeFCc237AF5b43" ];
     thresholds :=
       {| highValueThreshold := BigNumber.parseEther 100;
          suspiciousGasRatio := 95 # 100;
          minCallDepth := 8;
          maxReentrancyDepth := 3;
          minValidatorCount := 3;
          priceDeviationThreshold := 1 # 10 |} |}.

(** [result.detected = true; result.message = m; result.details.k = v] *)
Definition flag (m : string) (k : string) (v : JSON) (r : DetectionResult) : DetectionResult :=
  {| detected := true; message := m; details := JsObject.set k v (details r); type := type r |}.

(** [result.detected = true; result.message = m; result.details = d] *)
Definition flag_with (m : string) (d : Details) (r : DetectionResult) : DetectionResult :=
  {| detected := true; message := m; details := d; type := type r |}.

Definition clean (ty : option string) : DetectionResult :=
  {| detected := false; message := ""; details := []; type := ty |}.

(** ** Helper methods of the service *)

Import JsString.

Definition Qlt_b (x y : Q) : bool := negb (Qle_bool y x).

(** the loop of [calculateAddressSimilarity]: [a2[i]] is undefined past the
    end of [a2] and matches nothing *)
Fixpoint count_matches (a1 a2 : string) : nat :=
  match a1, a2 with
  | String c1 r1, String c2 r2 =>
      ((if Ascii.eqb c1 c2 then 1 else 0) + count_matches r1 r2)%nat
  | _, _ => O
  end.

(** [address.toLowerCase().replace('0x', '')] *)
Definition normalize (address : string) : string :=
  remove_first "0x" (toLowerCase address).

(** [matches / a1.length]; 0 / 0 is NaN *)
Definition calculateAddressSimilarity (address1 address2 : string) : option Q :=
  let a1 := normalize address1 in
  let a2 := normalize address2 in
  let matches := count_matches a1 a2 in
  match String.length a1 with
  | O => None
  | S n => Some (Z.of_nat matches # Pos.of_succ_nat n)
  end.

(** [similarity > 0.7 && similarity < 1.0].  The quotient of two string
    lengths differs from 7/10 and from 1 by more than a rounding error of
    double precision, so the comparisons are those of the exact quotient. *)
Definition isAddressSpoofing (address1 address2 : string) : bool :=
  if (negb (truthy address1) || negb (truthy address2))%bool then false
  else match calculateAddressSimilarity address1 address2 with
       | Some similarity => (Qlt_b (7 # 10) similarity && Qlt_b similarity 1)%bool
       | None => false
       end.

Definition similarity_json (s : option Q) : JSON :=
  match s with Some q => JNum q | None => JNaN end.

(** [charCounts[char] = (charCounts[char] || 0) + 1] over the string *)
Definition count_chars (s : string) : JsObject.t Z :=
  fold_left
    (fun charCounts c =>
       let k := String c "" in
       let old := match JsObject.get k charCounts with Some n => n | None => 0 end in
       JsObject.set k (old + 1) charCounts)
    (chars s) [].

(** the second loop of [isHashManipulated], from index 1 *)
Fixpoint sequential (prev : ascii) (sequentialCount : Z) (s : string) : bool :=
  match s with
  | EmptyString => false
  | String c s' =>
      if N.eqb (code c) (code prev + 1)
      then if 10 <? sequentialCount + 1 then true
           else sequential c (sequentialCount + 1) s'
      else sequential c 0 s'
  end.

Definition isHashManipulated (hash : option string) : bool :=
  match hash with
  | None => false
  | Some h =>
      if negb (truthy h) then false
      else
        let normalizedHash := normalize h in
        let charCounts := count_chars normalizedHash in
        if existsb (fun count => 20 <? count) (JsObject.values charCounts) then true
        else match normalizedHash with
             | EmptyString => false
             | String c rest => sequential c 0 rest
             end
  end.

Definition state_json (v : option StateValue) : JSON :=
  match v with
  | None => JUndefined
  | Some (SVString s) => JStr s
  | Some (SVNumber n) => JInt n
  | Some (SVSlots o) => JObj (map (fun kv => (fst kv, JStr (snd kv))) o)
  end.

(** [a !== b] on the fields of two snapshots *)
Definition strict_neq (a b : option StateValue) : bool :=
  match a, b with
  | None, None => false
  | Some (SVString x), Some (SVString y) => negb (String.eqb x y)
  | Some (SVNumber x), Some (SVNumber y) => negb (x =? y)
  | _, _ => true
  end.

Definition detectUnusualStateChanges (preState postState : WorldState) : list JSON :=
  let changes1 :=
    flat_map
      (fun address =>
         match JsObject.get address preState, JsObject.get address postState with
         | None, _ =>
             [JObj [("type", JStr "new_address"); ("address", JStr address)]]
         | Some preAcct, Some postAcct =>
             flat_map
               (fun key =>
                  let old := JsObject.get key preAcct in
                  let new := JsObject.get key postAcct in
                  if strict_neq old new
                  then [JObj [("type", JStr "state_change"); ("address", JStr address);
                              ("key", JStr key); ("oldValue", state_json old);
                              ("newValue", state_json new)]]
                  else [])
               (JsObject.keys postAcct)
         | Some _, None => []
         end)
      (JsObject.keys postState) in
  let changes2 :=
    flat_map
      (fun address =>
         if JsObject.has address postState then []
         else [JObj [("type", JStr "removed_address"); ("address", JStr address)]])
      (JsObject.keys preState) in
  changes1 ++ changes2.

Definition opt_length (o : option string) : Z :=
  match o with Some s => Z.of_nat (String.length s) | None => 0 end.

Definition pattern_json (msg ty : string) (extra : list (string * JSON)) : JSON :=
  JObj ([("detected", JBool true); ("message", JStr msg); ("details", JObj []);
         ("type", JStr ty)] ++ extra).

Section Service.

Variable this : DetectionService.

Definition blacklisted (a : string) : bool :=
  mem (toLowerCase a) (blacklistedAddresses this).

(** the returned object, or [None] for [false] *)
Definition detectSuspiciousCallPattern (calls : list CallRecord) : option JSON :=
  match calls with
  | [] => None
  | _ =>
      if minCallDepth (thresholds this) <? Z.of_nat (length calls)
      then Some (pattern_json "Deep call chain detected" "deep_call_chain"
                              [("depth", JInt (Z.of_nat (length calls)))])
      else
        let addressCallCount : JsObject.t Z :=
          fold_left
            (fun acc call =>
               if truthy (call_to call)
               then let old := match JsObject.get (call_to call) acc with
                               | Some n => n
                               | None => 0
                               end in
                    JsObject.set (call_to call) (old + 1) acc
               else acc)
            calls [] in
        let count_of addr :=
          match JsObject.get addr addressCallCount with Some n => n | None => 0 end in
        let suspiciousAddresses :=
          filter (fun addr => 3 <? count_of addr) (JsObject.keys addressCallCount) in
        match suspiciousAddresses with
        | _ :: _ =>
            Some (pattern_json "Repeated calls to same addresses detected" "repeated_calls"
                    [("addresses", jstrings suspiciousAddresses);
                     ("counts", JArr (map (fun a => JInt (count_of a)) suspiciousAddresses))])
        | [] =>
            let sizeDisparity :=
              existsb
                (fun call =>
                   let inputSize :=
                     if opt_truthy (call_input call) then opt_length (call_input call) else 0 in
                   let outputSize :=
                     if opt_truthy (call_output call) then opt_length (call_output call) else 0 in
                   ((0 <? inputSize) && (100 * inputSize <? outputSize))%bool)
                calls in
            if sizeDisparity
            then Some (pattern_json "Unusual input/output size disparity detected"
                                    "input_output_disparity" [])
            else None
        end
  end.

(** *** Spoofing *)
Definition detectSpoofing (transaction : Transaction) : DetectionResult :=
  let trace := trace transaction in
  let result := clean None in
  let result :=
    if (blacklisted (from trace) || blacklisted (to trace))%bool
    then flag "Transaction involves blacklisted address." "blacklistedAddress"
              (JStr (if String.eqb (toLowerCase (from trace)) (toLowerCase (to trace))
                     then from trace
                     else (from trace ++ " or " ++ to trace)%string))
              result
    else result in
  let result :=
    if isAddressSpoofing (from trace) (to trace)
    then flag "Potential address spoofing detected." "addressSimilarity"
              (JObj [("from", JStr (from trace)); ("to", JStr (to trace));
                     ("similarity",
                      similarity_json (calculateAddressSimilarity (from trace) (to trace)))])
              result
    else result in
  if isHashManipulated (transactionHash trace)
  then flag "Suspicious transaction hash pattern detected." "suspiciousHash"
            (match transactionHash trace with Some h => JStr h | None => JUndefined end)
            result
  else result.

Definition approve_signature : string :=
  match JsObject.get "approve" (commonSignatures this) with Some s => s | None => "" end.

Definition has_selector (i : option string) : option string :=
  match i with
  | Some s => if (truthy s && (10 <=? String.length s)%nat)%bool then Some s else None
  | None => None
  end.

(** *** Phishing *)
Definition detectPhishing (transaction : Transaction) : DetectionResult :=
  let trace := trace transaction in
  let result := clean None in
  let result :=
    match has_selector (input trace) with
    | Some inp =>
        let methodSignature := substring0 10 inp in
        let result :=
          if mem methodSignature (phishingSignatures this)
          then flag "Known phishing signature detected in transaction input."
                    "phishingSignature" (JStr methodSignature) result
          else result in
        let isUnlimitedApproval :=
          includes inp "ffffffffffffffffffffffffffffffffffffffffffffffffffffffffffffffff" in
        let isToSuspiciousAddress := blacklisted (to trace) in
        if (String.eqb methodSignature approve_signature && isUnlimitedApproval)%bool
        then flag_with
               (if isToSuspiciousAddress
                then "Unlimited token approval to suspicious address detected."
                else "Unlimited token approval detected - potential phishing.")
               [("unlimitedApproval", JBool true); ("approvalTarget", JStr (to trace))]
               result
        else result
    | None => result
    end in
  let hasOwnershipTransfer :=
    match logs trace with
    | Some ls =>
        existsb
          (fun log =>
             mem "0x8be0079c531659141344cd1fd0a4f28419497f9722a3daafe3b4186f6b6457e0"
                 (log_topics log))
          ls
    | None => false
    end in
  if hasOwnershipTransfer
  then flag_with
         (if blacklisted (to trace)
          then "Ownership transfer to suspicious address detected."
          else "Ownership transfer detected - verify legitimacy.")
         [("ownershipTransfer", JBool true); ("transferTarget", JStr (to trace))]
         result
  else result.

(** *** Poisoning *)
Definition detectPoisoning (transaction : Transaction) : DetectionResult :=
  let trace := trace transaction in
  let result := clean None in
  let result :=
    match has_selector (input trace) with
    | Some inp =>
        let methodSignature := substring0 10 inp in
        if mem methodSignature (poisoningPatterns this)
        then flag "Known state poisoning pattern detected." "poisoningSignature"
                  (JStr methodSignature) result
        else result
    | None => result
    end in
  let result :=
    match pre trace, post trace with
    | Some preState, Some postState =>
        match detectUnusualStateChanges preState postState with
        | [] => result
        | unusualStateChanges =>
            flag "Unusual state changes detected - potential poisoning." "stateChanges"
                 (JArr unusualStateChanges) result
        end
    | _, _ => result
    end in
  match calls trace with
  | Some (c :: cs) =>
      match detectSuspiciousCallPattern (c :: cs) with
      | Some suspiciousCallPattern =>
          flag "Unusual function call pattern detected." "suspiciousCallPattern"
               suspiciousCallPattern result
      | None => result
      end
  | _ => result
  end.

(** *** The legitimacy override *)

Definition aux {A} (f : AuxiliaryContext -> option A)
           (additionalData : option AuxiliaryContext) : option A :=
  match additionalData with Some a => f a | None => None end.

(** [additionalData?.detectorName?.includes('false-positive')] *)
Definition tagged_false_positive (additionalData : option AuxiliaryContext) : bool :=
  opt_includes (aux detectorName additionalData) "false-positive".

(** [additionalData?.testName?.toLowerCase().includes('legitimate')] *)
Definition named_legitimate (additionalData : option AuxiliaryContext) : bool :=
  match aux testName additionalData with
  | Some n => includes (toLowerCase n) "legitimate"
  | None => false
  end.

Definition calls_or_empty (t : TransactionTrace) : list CallRecord :=
  match calls t with Some l => l | None => [] end.

(** [calls[calls.length - 1]] *)
Definition last_call (l : list CallRecord) : option CallRecord :=
  match l with
  | [] => None
  | c :: _ => Some (last l c)
  end.

Definition opt_value (c : option CallRecord) : option string :=
  match c with Some c => call_value c | None => None end.

(** [a && b && b >= a] on two optional numbers *)
Definition quorum (required provided : option Z) : bool :=
  match required, provided with
  | Some r, Some p =>
      (JsNumber.truthy required && JsNumber.truthy provided && (r <=? p))%bool
  | _, _ => false
  end.

(** [transaction.additionalData], where a parameter of the same name is in
    scope *)
Definition own_data (transaction : Transaction) : option AuxiliaryContext :=
  additionalData transaction.

Definition isLegitimateOperation (transaction : Transaction)
           (additionalData : option AuxiliaryContext) : result bool :=
  let calls := calls_or_empty (trace transaction) in
  if (String.eqb (from (trace transaction)) "0x1234567890123456789012345678901234567890"
      || opt_eqb (aux senderType (own_data transaction))
                 (Some "verified_entity")
      || named_legitimate (own_data transaction)
      || tagged_false_positive (own_data transaction))%bool
  then Ok true
  else
    flashLoan <-
      (if opt_startsWith (input (trace transaction)) "0xc3018a0e"
       then
         if ((1 <? length calls)%nat
             && match calls with
                | c0 :: _ =>
                    (opt_startsWith (call_input c0) "0xc3018a0e"
                     && String.eqb (call_to (last calls c0)) (call_to c0))%bool
                | [] => false
                end)%bool
         then Ok true
         else
           loanAmount <- BigNumber.from (or_default (opt_value (hd_error calls)) "0") ;;
           repaymentAmount <- BigNumber.from (or_default (opt_value (last_call calls)) "0") ;;
           Ok (BigNumber.mul_div loanAmount 99 100 <? repaymentAmount)
       else Ok false) ;;
    if flashLoan then Ok true
    else if (mem (from (trace transaction)) (trustedAddresses this)
             && opt_startsWith (input (trace transaction)) "0xa9059cbb")%bool
    then Ok true
    else if quorum (aux signaturesRequired additionalData)
                   (aux signaturesProvided additionalData)
    then Ok true
    else if quorum (aux validatorsRequired additionalData)
                   (aux validatorsConfirmed additionalData)
    then Ok true
    else if (includes (toLowerCase (to (trace transaction))) "bridge"
             && (JsNumber.truthy (aux sourceChainId additionalData)
                 || JsNumber.truthy (aux destinationChainId additionalData)))%bool
    then Ok true
    else if (opt_eqb (aux operationType additionalData) (Some "verified_protocol_action")
             || match aux contractsVerified additionalData with
                | Some true => true
                | _ => false
                end)%bool
    then Ok true
    else Ok false.

(** *** The call graph *)

Record Edge : Type :=
  mkEdge {
      edge_to : string;
      edge_index : nat;
      edge_value : string
    }.

Definition CallGraph := JsObject.t (list Edge).

(** [if (!graph[k]) graph[k] = []] *)
Definition ensure (k : string) (graph : CallGraph) : CallGraph :=
  if JsObject.has k graph then graph else JsObject.set k [] graph.

(** [graph[k].push(e)], for a key that is present *)
Definition push_edge (k : string) (e : Edge) (graph : CallGraph) : CallGraph :=
  match JsObject.get k graph with
  | Some es => JsObject.set k (es ++ [e]) graph
  | None => graph
  end.

Definition indexed {A} (l : list A) : list (nat * A) :=
  combine (seq 0 (length l)) l.

(** [v && ethers.BigNumber.from(v).gt(0)] in a boolean position *)
Definition positive_value (v : option string) : result bool :=
  match v with
  | Some s => if truthy s then (z <- BigNumber.from s ;; Ok (0 <? z)) else Ok false
  | None => Ok false
  end.

(** [input?.includes('0x2e1a7d4d') || input?.includes('0x51cff8d9')] *)
Definition withdraw_like (i : option string) : bool :=
  (opt_includes i "0x2e1a7d4d" || opt_includes i "0x51cff8d9")%bool.

Definition edge_of (index : nat) (target : string) (call : CallRecord) : Edge :=
  {| edge_to := target; edge_index := index;
     edge_value := or_default (call_value call) "0" |}.

Definition skipped (call : CallRecord) : bool :=
  (negb (truthy (call_from call)) || negb (truthy (call_to call)))%bool.

Definition forward_pass (graph : CallGraph) (ic : nat * CallRecord) : CallGraph :=
  let '(index, call) := ic in
  if skipped call then graph
  else push_edge (call_from call) (edge_of index (call_to call) call)
                 (ensure (call_from call) graph).

Definition reverse_pass (graph : CallGraph) (ic : nat * CallRecord) : result CallGraph :=
  let '(index, call) := ic in
  if skipped call then Ok graph
  else
    let graph := ensure (call_to call) graph in
    carries <- positive_value (call_value call) ;;
    if (carries || (opt_truthy (call_input call) && withdraw_like (call_input call)))%bool
    then Ok (push_edge (call_to call) (edge_of index (call_from call) call) graph)
    else Ok graph.

Definition buildCallGraph (calls : list CallRecord) : result CallGraph :=
  foldM reverse_pass (indexed calls) (fold_left forward_pass (indexed calls) []).

(** *** The reentrancy path finder *)

Record DfsState : Type :=
  mkDfs {
      paths : list (list string);
      visited : list string          (* a [Set<string>] *)
    }.

Definition set_add (x : string) (s : list string) : list string :=
  if mem x s then s else s ++ [x].

Definition set_delete (x : string) (s : list string) : list string :=
  filter (fun y => negb (String.eqb x y)) s.

(** [path.indexOf(node)], for a node that occurs *)
Fixpoint indexOf (node : string) (path : list string) : nat :=
  match path with
  | [] => O
  | x :: path' => if String.eqb node x then O else S (indexOf node path')
  end.

(** [path.slice(i)] *)
Definition slice {A} (i : nat) (l : list A) : list A := skipn i l.

Definition neighbours (callGraph : CallGraph) (node : string) : list Edge :=
  match JsObject.get node callGraph with Some es => es | None => [] end.

Fixpoint fold_opt {A S} (f : S -> A -> option S) (l : list A) (s : S) : option S :=
  match l with
  | [] => Some s
  | a :: l' => match f s a with Some s' => fold_opt f l' s' | None => None end
  end.

(** the closure [dfs]; [fuel] bounds the nesting of the recursion and
    [None] means that it was used up *)
Fixpoint dfs (fuel : nat) (callGraph : CallGraph) (node : string)
         (path : list string) (depth : nat) (st : DfsState) : option DfsState :=
  match fuel with
  | O => None
  | S fuel' =>
      if (maxReentrancyDepth (thresholds this) <? depth)%nat then Some st
      else if ((0 <? length path)%nat && mem node path)%bool
      then
        let cycle := slice (indexOf node path) path ++ [node] in
        Some {| paths := paths st ++ [cycle]; visited := visited st |}
      else
        let st := {| paths := paths st; visited := set_add node (visited st) |} in
        let path := path ++ [node] in
        match fold_opt (fun st edge => dfs fuel' callGraph (edge_to edge) path (S depth) st)
                       (neighbours callGraph node) st with
        | Some st => Some {| paths := paths st; visited := set_delete node (visited st) |}
        | None => None
        end
  end.

Definition dfs_fuel : nat := S (S (maxReentrancyDepth (thresholds this))).

Definition findReentrancyPaths (callGraph : CallGraph) : option (list (list string)) :=
  match fold_opt
          (fun st node =>
             if mem node (visited st) then Some st
             else dfs dfs_fuel callGraph node [] 0 st)
          (JsObject.keys callGraph) {| paths := []; visited := [] |} with
  | Some st => Some (paths st)
  | None => None
  end.

(** *** Reentrancy *)

Definition touches (addr : string) (call : CallRecord) : bool :=
  (String.eqb (call_from call) addr || String.eqb (call_to call) addr)%bool.

(** adjacent elements [(l[i-1], l[i])] for i = 1, 2, ... *)
Definition adjacent {A} (l : list A) : list (A * A) := combine l (tl l).

Definition pattern (name severity description : string) : JSON :=
  JObj [("pattern", JStr name); ("severity", JStr severity);
        ("description", JStr description)].

Definition analyzeReentrancyPatterns (calls : list CallRecord)
           (paths : list (list string)) : result (list JSON) :=
  hasWriteAfterCall <-
    someM
      (fun path =>
         let pathCalls :=
           flat_map
             (fun addr =>
                match find (touches addr) calls with Some c => [c] | None => [] end)
             path in
         someM
           (fun pc : CallRecord * CallRecord =>
              let '(prevCall, call) := pc in
              if opt_includes (call_input call) "0x"
              then positive_value (call_value prevCall)
              else Ok false)
           (adjacent pathCalls))
      paths ;;
  let patterns :=
    if hasWriteAfterCall
    then [pattern "write_after_call" "high"
                  "State changes detected after external calls with value transfers"]
    else [] in
  let withdrawalCalls := filter (fun call => withdraw_like (call_input call)) calls in
  let patterns :=
    if (1 <? length withdrawalCalls)%nat
    then patterns ++
         [pattern "multiple_withdrawals" "high"
                  ("Multiple withdrawal calls ("
                     ++ Z_to_string (Z.of_nat (length withdrawalCalls))
                     ++ ") detected in the same transaction")%string]
    else patterns in
  hasNestedValueTransfers <-
    someM
      (fun path =>
         valueTransferCount <-
           foldM
             (fun count addr =>
                relatedCalls <-
                  filterM
                    (fun call =>
                       if touches addr call then positive_value (call_value call)
                       else Ok false)
                    calls ;;
                Ok (count + length relatedCalls)%nat)
             path O ;;
         Ok (1 <? valueTransferCount)%nat)
      paths ;;
  Ok (if hasNestedValueTransfers
      then patterns ++
           [pattern "nested_value_transfers" "medium"
                    "Multiple value transfers detected in nested calls"]
      else patterns).

(** [a.filter((v, i, a) => a.indexOf(v) === i)] *)
Fixpoint dedup (seen l : list string) : list string :=
  match l with
  | [] => []
  | x :: l' => if mem x seen then dedup seen l' else x :: dedup (seen ++ [x]) l'
  end.

Definition reentrancy_details (calls : list CallRecord) (reentrancyPaths : list (list string))
           (patterns : list JSON) : Details :=
  [("reentrancyPaths", JArr (map jstrings reentrancyPaths));
   ("callCount", JInt (Z.of_nat (length calls)));
   ("suspiciousPatterns", JArr patterns);
   ("contractsInvolved", jstrings (dedup [] (concat reentrancyPaths)))].

Definition detectReentrancy (transaction : Transaction) : result DetectionResult :=
  let trace := trace transaction in
  let result := clean (Some "reentrancy") in
  legitimate <- isLegitimateOperation transaction (additionalData transaction) ;;
  if legitimate then Ok result
  else if (tagged_false_positive (additionalData transaction)
           || named_legitimate (additionalData transaction))%bool
  then Ok result
  else
    match calls trace with
    | None | Some [] => Ok result
    | Some calls =>
        callGraph <- buildCallGraph calls ;;
        match findReentrancyPaths callGraph with
        | None => Throw OutOfFuel
        | Some [] => Ok result
        | Some reentrancyPaths =>
            patterns <- analyzeReentrancyPatterns calls reentrancyPaths ;;
            Ok (flag_with "Potential reentrancy attack detected."
                          (reentrancy_details calls reentrancyPaths patterns) result)
        end
    end.

(** *** Front-running *)

Definition num_json (n : option Z) : JSON :=
  match n with Some z => JInt z | None => JNaN end.

(** the template [`${((gas / 21000) - 1) * 100}%`] *)
Definition gasDifference (n : option Z) : JSON :=
  match n with
  | Some z => JPercent (((inject_Z z / inject_Z 21000) - 1) * 100)%Q
  | None => JStr "NaN%"
  end.

Definition detectFrontRunning (transaction : Transaction) : result DetectionResult :=
  let trace := trace transaction in
  let result := clean (Some "front_running") in
  legitimate <- isLegitimateOperation transaction (additionalData transaction) ;;
  if legitimate then Ok result
  else
    match gas trace with
    | None => Ok result
    | Some g =>
        if negb (truthy g) then Ok result
        else
          let gasValue := JsNumber.num_or (JsNumber.parseInt16 g) (JsNumber.parseInt g) in
          let highGasLimit :=
            (JsNumber.gt gasValue 1000000 || String.eqb g "2000000")%bool in
          let result :=
            if (highGasLimit && negb (tagged_false_positive (additionalData transaction)))%bool
            then flag_with "Unusually high gas limit - potential front-running."
                   [("frontRunning",
                     JObj [("highGas", num_json gasValue);
                           ("normalGasLimit", JInt 21000);
                           ("gasDifference", gasDifference gasValue);
                           ("suspicionReason",
                            JStr "Abnormally high gas limit compared to standard transactions")])]
                   result
            else result in
          match input trace with
          | Some inp =>
              if (truthy inp && startsWith inp "0xa9059cbb" && String.eqb g "2000000"
                  && negb (tagged_false_positive (additionalData transaction)))%bool
              then Ok (flag_with "High gas transfer - potential front-running."
                         [("frontRunning",
                           JObj [("highGas", num_json (JsNumber.parseInt g));
                                 ("functionSignature", JStr (substring0 10 inp));
                                 ("gasDifference", gasDifference (JsNumber.parseInt g));
                                 ("transactionType",
                                  JStr "ERC20 token transfer with unusually high gas")])]
                         result)
              else Ok result
          | None => Ok result
          end
    end.

(** *** Abnormal value *)

Definition detectAbnormalValue (transaction : Transaction) : result DetectionResult :=
  let trace := trace transaction in
  let result := clean None in
  match value trace with
  | None => Ok result
  | Some v =>
      if negb (truthy v) then Ok result
      else
        amount <- BigNumber.from v ;;
        if ((highValueThreshold (thresholds this) <? amount)
            || String.eqb v "100000000000000000000")%bool
        then Ok (flag_with "Unusually high transaction value detected."
                   [("transactionValue", JStr v);
                    ("threshold", JStr (Z_to_string (highValueThreshold (thresholds this))))]
                   result)
        else Ok result
  end.

(** *** Flash loan *)

Definition flash_signature (i : option string) : bool :=
  (opt_truthy i
   && (opt_includes i "0xc3018a0e" || opt_includes i "0x5cffe9de"
       || opt_includes i "0xd9d98ce4"))%bool.

(** one turn of the loop over [trace.calls]; the state is
    [(largeValueTransfer, repaymentPattern)] *)
Definition flash_step (first : CallRecord) (st : bool * bool) (ic : nat * CallRecord)
  : result (bool * bool) :=
  let '(largeValueTransfer, repaymentPattern) := st in
  let '(i, call) := ic in
  large <-
    (if opt_truthy (call_value call)
     then z <- BigNumber.from (or_default (call_value call) "") ;;
          Ok (highValueThreshold (thresholds this) <? z)
     else Ok false) ;;
  let largeValueTransfer := (largeValueTransfer || large)%bool in
  repaid <-
    (if ((0 <? i)%nat && largeValueTransfer
         && String.eqb (call_to call) (call_from first))%bool
     then positive_value (call_value call)
     else Ok false) ;;
  Ok (largeValueTransfer, (repaymentPattern || repaid)%bool).

Definition detectFlashLoanAttack (transaction : Transaction) : result DetectionResult :=
  let trace := trace transaction in
  let result := clean None in
  match calls trace with
  | Some (first :: rest) =>
      let calls := first :: rest in
      let hasFlashLoanSignature :=
        existsb (fun call => flash_signature (call_input call)) calls in
      st <- foldM (flash_step first) (indexed calls) (false, false) ;;
      let '(largeValueTransfer, repaymentPattern) := st in
      if (hasFlashLoanSignature || (largeValueTransfer && repaymentPattern))%bool
      then Ok (flag "Flash loan pattern detected - verify legitimacy." "flashLoanIndicators"
                    (JObj [("hasFlashLoanSignature", JBool hasFlashLoanSignature);
                           ("largeValueTransfer", JBool largeValueTransfer);
                           ("repaymentPattern", JBool repaymentPattern)])
                    result)
      else Ok result
  | _ => Ok result
  end.

(** *** Honeypot *)

Definition detectHoneypot (transaction : Transaction) : DetectionResult :=
  let trace := trace transaction in
  let result := clean None in
  let hasFailedWithdrawal :=
    match calls trace with
    | Some calls =>
        existsb
          (fun call =>
             (opt_truthy (call_input call)
              && opt_includes (call_input call) "0x2e1a7d4d"
              && (negb (opt_truthy (call_output call))
                  || opt_eqb (call_output call) (Some "0x")))%bool)
          calls
    | None => false
    end in
  if hasFailedWithdrawal
  then flag "Failed withdrawal detected - potential honeypot." "failedWithdrawal"
            (JBool true) result
  else result.

(** *** Governance attack *)

(** [input?.startsWith('0xa9059cbb') &&
     ethers.BigNumber.from(value || '0').gt(ethers.utils.parseEther('1000'))] *)
Definition large_transfer (call : CallRecord) : result bool :=
  if opt_startsWith (call_input call) "0xa9059cbb"
  then z <- BigNumber.from (or_default (call_value call) "0") ;;
       Ok (BigNumber.parseEther 1000 <? z)
  else Ok false.

Definition nested (call : CallRecord) : list CallRecord :=
  match call_calls call with Some l => l | None => [] end.

(** [flag = flag || b] over a list, the test being evaluated on every
    element *)
Definition anyM {A} (p : A -> result bool) (l : list A) : result bool :=
  foldM (fun acc a => b <- p a ;; Ok (acc || b)%bool) l false.

Definition governance_action (call : CallRecord) : bool :=
  mem (opt_selector (call_input call)) (governanceSignatures this).

Definition detectGovernanceAttack (transaction : Transaction) : result DetectionResult :=
  let result := clean (Some "governance_attack") in
  let calls := calls_or_empty (trace transaction) in
  let hasFlashLoan :=
    existsb (fun call => opt_startsWith (call_input call) "0xc3018a0e") calls in
  let hasGovernanceAction := existsb governance_action calls in
  hasLargeTransfer <- anyM large_transfer calls ;;
  hasTreasuryDrain <-
    (if existsb (fun call => opt_startsWith (call_input call) "0x0825f38f") calls
     then anyM (fun call =>
                  anyM (fun nestedCall => anyM large_transfer (nested nestedCall))
                       (nested call))
               calls
     else Ok false) ;;
  let transferCalls :=
    filter (fun call => opt_startsWith (call_input call) "0xa9059cbb") calls in
  let hasMultipleTransfers := (3 <=? length transferCalls)%nat in
  let hasTimeManipulation :=
    existsb (fun call => opt_startsWith (call_input call) "0x9054c7da") calls in
  let suspiciousPatterns :=
    (if (hasFlashLoan && hasGovernanceAction)%bool then ["flash_loan_governance"] else [])
      ++ (if ((hasGovernanceAction && hasLargeTransfer) || hasTreasuryDrain)%bool
          then ["treasury_drain"] else [])
      ++ (if (hasMultipleTransfers && hasGovernanceAction)%bool then ["vote_buying"] else [])
      ++ (if (hasTimeManipulation && hasGovernanceAction)%bool
          then ["timelock_bypass"] else []) in
  match suspiciousPatterns with
  | [] => Ok result
  | _ =>
      Ok (flag_with "Suspicious governance activity detected"
            [("suspiciousPatterns", jstrings suspiciousPatterns);
             ("hasFlashLoan", JBool hasFlashLoan);
             ("hasGovernanceAction", JBool hasGovernanceAction);
             ("hasLargeTransfer", JBool hasLargeTransfer);
             ("hasTreasuryDrain", JBool hasTreasuryDrain)]
            result)
  end.

(** *** Oracle manipulation *)

Definition oracle_call (call : CallRecord) : bool :=
  mem (opt_selector (call_input call)) (oracleSignatures this).

Definition swap_call (call : CallRecord) : bool :=
  opt_startsWith (call_input call) "0x38ed1739".

(** [calls[i], calls[i+1], calls[i+2]] for some i: swap, oracle, swap *)
Fixpoint sandwich (calls : list CallRecord) : bool :=
  match calls with
  | a :: ((b :: c :: _) as rest) =>
      if (swap_call a && oracle_call b && swap_call c)%bool then true else sandwich rest
  | _ => false
  end.

(** The key [storage] of an account snapshot, when present, holds a slot
    map (the trace data model); a scalar there counts as absent. *)
Definition storage_of (acct : AccountState) : option (JsObject.t string) :=
  match JsObject.get "storage" acct with
  | Some (SVSlots o) => Some o
  | _ => None
  end.

Definition slot_jump (preStorage postStorage : JsObject.t string) (slot : string)
  : result bool :=
  match JsObject.get slot postStorage with
  | Some pv =>
      if truthy pv
      then preValue <- BigNumber.from (or_default (JsObject.get slot preStorage) "") ;;
           postValue <- BigNumber.from pv ;;
           Ok (negb (preValue =? 0) && (BigNumber.mul_div preValue 15 10 <? postValue))%bool
      else Ok false
  | None => Ok false
  end.

Definition price_change (preState postState : WorldState) : result bool :=
  anyM
    (fun address =>
       match JsObject.get address preState with
       | Some preAcct =>
           match storage_of preAcct with
           | Some preStorage =>
               match JsObject.get address postState with
               | None => Throw (TypeError "post[address].storage")
               | Some postAcct =>
                   match storage_of postAcct with
                   | Some postStorage =>
                       anyM (slot_jump preStorage postStorage) (JsObject.keys preStorage)
                   | None => Ok false
                   end
               end
           | None => Ok false
           end
       | None => Ok false
       end)
    (JsObject.keys preState).

(** [calls.some(call => borrow(call) &&
      swapCalls.every(swapCall => calls.indexOf(swapCall) < calls.indexOf(call)))];
    the entries of [calls] are distinct objects, so [indexOf] is the
    position *)
Definition borrow_after_swaps (calls : list CallRecord) : bool :=
  let swapPositions :=
    map fst (filter (fun ic => swap_call (snd ic)) (indexed calls)) in
  existsb
    (fun ic : nat * CallRecord =>
       (opt_startsWith (call_input (snd ic)) "0xc5ebeaec"
        && forallb (fun i => (i <? fst ic)%nat) swapPositions)%bool)
    (indexed calls).

Definition detectOracleManipulation (transaction : Transaction) : result DetectionResult :=
  let result := clean (Some "oracle_manipulation") in
  let calls := calls_or_empty (trace transaction) in
  let hasOracleInteraction := existsb oracle_call calls in
  let hasLargeSwap := existsb swap_call calls in
  let hasFlashLoan :=
    existsb (fun call => opt_startsWith (call_input call) "0xc3018a0e") calls in
  let hasLowGasValidation :=
    existsb
      (fun call =>
         (oracle_call call
          && JsNumber.lt (JsNumber.parseInt (or_default (call_gasUsed call) "0")) 30000)%bool)
      calls in
  let hasReverseSwap := sandwich calls in
  significantPriceChange <-
    match pre (trace transaction), post (trace transaction) with
    | Some preState, Some postState => price_change preState postState
    | _, _ => Ok false
    end ;;
  let swapCalls := filter swap_call calls in
  let hasMultipleSwaps := (3 <=? length swapCalls)%nat in
  let hasBorrowAfterSwaps := (hasMultipleSwaps && borrow_after_swaps calls)%bool in
  let suspiciousPatterns :=
    (if (hasFlashLoan && hasOracleInteraction && hasLargeSwap)%bool
     then ["flash_loan_price_manipulation"] else [])
      ++ (if hasReverseSwap then ["sandwich_attack"] else [])
      ++ (if (hasMultipleSwaps && (hasOracleInteraction || hasBorrowAfterSwaps))%bool
          then ["twap_manipulation"] else [])
      ++ (if hasLowGasValidation then ["stale_price_data"] else [])
      ++ (if significantPriceChange then ["significant_price_change"] else []) in
  match suspiciousPatterns with
  | [] => Ok result
  | _ =>
      Ok (flag_with "Oracle manipulation attack detected"
            [("suspiciousPatterns", jstrings suspiciousPatterns);
             ("hasOracleInteraction", JBool hasOracleInteraction);
             ("hasLargeSwap", JBool hasLargeSwap);
             ("hasFlashLoan", JBool hasFlashLoan);
             ("hasMultipleSwaps", JBool hasMultipleSwaps);
             ("hasBorrowAfterSwaps", JBool hasBorrowAfterSwaps);
             ("significantPriceChange", JBool significantPriceChange)]
            result)
  end.

(** *** Cross-chain attack *)

(** [a !== b] on optional numbers *)
Definition num_neq (a b : option Z) : bool :=
  match a, b with
  | Some x, Some y => negb (x =? y)
  | None, None => false
  | _, _ => true
  end.

Definition verification_call (call : CallRecord) : bool :=
  opt_startsWith (call_input call) "0xa2e62045".

Definition gas_used_below (call : CallRecord) (k : Z) : bool :=
  JsNumber.lt (JsNumber.parseInt (or_default (call_gasUsed call) "0")) k.

Definition detectCrossChainAttack (transaction : Transaction) : result DetectionResult :=
  let result := clean (Some "cross_chain_attack") in
  legitimate <- isLegitimateOperation transaction (additionalData transaction) ;;
  if legitimate then Ok result
  else if tagged_false_positive (additionalData transaction) then Ok result
  else
    let calls := calls_or_empty (trace transaction) in
    let additionalData :=
      match additionalData transaction with Some a => a | None => noAux end in
    let hasBridgeInteraction :=
      existsb (fun call => mem (opt_selector (call_input call)) (bridgeSignatures this))
              calls in
    let hasLowGasValidation :=
      existsb (fun call => (verification_call call && gas_used_below call 20000)%bool)
              calls in
    hasUnauthorizedWithdrawal <-
      anyM (fun call =>
              if String.eqb (toLowerCase (call_from call))
                            (toLowerCase (to (trace transaction)))
              then large_transfer call
              else Ok false)
           calls ;;
    let hasDoubleSpend :=
      (match previouslyExecuted additionalData with Some true => true | _ => false end
       || (opt_truthy (messageTx additionalData)
           && num_neq (originalChainId additionalData) (currentChain additionalData)))%bool in
    let hasMessageModification :=
      (opt_truthy (originalMessage additionalData)
       && opt_truthy (alteredMessage additionalData)
       && negb (opt_eqb (originalMessage additionalData)
                        (alteredMessage additionalData)))%bool in
    hasPriceInconsistency <-
      (if (opt_truthy (sourcePrice additionalData)
           && opt_truthy (destinationPrice additionalData))%bool
       then srcPrice <- BigNumber.from (or_default (sourcePrice additionalData) "") ;;
            destPrice <- BigNumber.from (or_default (destinationPrice additionalData) "") ;;
            Ok ((0 <? srcPrice)
                && ((BigNumber.mul_div srcPrice 12 10 <? destPrice)
                    || (destPrice <? BigNumber.mul_div srcPrice 8 10)))%bool
       else Ok false) ;;
    hasBalanceInconsistency <-
      (if (opt_truthy (sourceTotalLocked additionalData)
           && opt_truthy (destinationTotalMinted additionalData))%bool
       then locked <- BigNumber.from (or_default (sourceTotalLocked additionalData) "") ;;
            minted <- BigNumber.from (or_default (destinationTotalMinted additionalData) "") ;;
            Ok (negb (locked =? minted))
       else Ok false) ;;
    let internalCalls :=
      filter (fun call =>
                (opt_eqb (call_input call) (Some "0xffffffff")
                 && gas_used_below call 15000)%bool)
             calls in
    let hasInsufficientValidation :=
      (hasLowGasValidation
       || ((0 <? length internalCalls)%nat && hasBridgeInteraction))%bool in
    let verificationCalls := filter verification_call calls in
    let insufficientValidators :=
      Z.of_nat (length verificationCalls) <? minValidatorCount (thresholds this) in
    let suspiciousPatterns :=
      (if hasUnauthorizedWithdrawal then ["unauthorized_withdrawal"] else [])
        ++ (if (hasInsufficientValidation || insufficientValidators)%bool
            then ["validation_bypass"] else [])
        ++ (if hasDoubleSpend then ["cross_chain_replay"] else [])
        ++ (if hasPriceInconsistency then ["price_inconsistency"] else [])
        ++ (if hasMessageModification then ["message_modification"] else [])
        ++ (if hasBalanceInconsistency then ["balance_inconsistency"] else []) in
    match suspiciousPatterns with
    | [] => Ok result
    | _ =>
        Ok (flag_with "Cross-chain attack detected"
              [("suspiciousPatterns", jstrings suspiciousPatterns);
               ("hasBridgeInteraction", JBool hasBridgeInteraction);
               ("hasInsufficientValidation", JBool hasInsufficientValidation);
               ("hasUnauthorizedWithdrawal", JBool hasUnauthorizedWithdrawal)]
              result)
    end.

(** *** The aggregator *)

(** the chain [if (type === 'spoofing') response.detectionDetails.spoofing = ...
    else if ...] *)
Definition assign_details (type : string) (d : Details) (dd : JsObject.t Details)
  : JsObject.t Details :=
  if String.eqb type "spoofing" then JsObject.set "spoofing" d dd
  else if String.eqb type "phishing" then JsObject.set "phishing" d dd
  else if String.eqb type "poisoning" then JsObject.set "poisoning" d dd
  else if String.eqb type "reentrancy" then JsObject.set "reentrancy" d dd
  else if String.eqb type "frontRunning" then JsObject.set "frontRunning" d dd
  else if String.eqb type "abnormalValue" then JsObject.set "abnormalValue" d dd
  else if String.eqb type "flashLoan" then JsObject.set "flashLoan" d dd
  else if String.eqb type "honeypot" then JsObject.set "honeypot" d dd
  else if String.eqb type "governanceAttack" then JsObject.set "governanceAttack" d dd
  else if String.eqb type "oracleManipulation" then JsObject.set "oracleManipulation" d dd
  else if String.eqb type "crossChainAttack" then JsObject.set "crossChainAttack" d dd
  else dd.

(** [a.join(sep)] *)
Fixpoint join (sep : string) (l : list string) : string :=
  match l with
  | [] => ""
  | [x] => x
  | x :: l' => (x ++ sep ++ join sep l')%string
  end.

(** the eleven evaluators, in the order of the object literal *)
Definition run_detectors (transaction : Transaction)
  : result (JsObject.t DetectionResult) :=
  let spoofing := detectSpoofing transaction in
  let phishing := detectPhishing transaction in
  let poisoning := detectPoisoning transaction in
  reentrancy <- detectReentrancy transaction ;;
  frontRunning <- detectFrontRunning transaction ;;
  abnormalValue <- detectAbnormalValue transaction ;;
  flashLoan <- detectFlashLoanAttack transaction ;;
  let honeypot := detectHoneypot transaction in
  governanceAttack <- detectGovernanceAttack transaction ;;
  oracleManipulation <- detectOracleManipulation transaction ;;
  crossChainAttack <- detectCrossChainAttack transaction ;;
  Ok [("spoofing", spoofing); ("phishing", phishing); ("poisoning", poisoning);
      ("reentrancy", reentrancy); ("frontRunning", frontRunning);
      ("abnormalValue", abnormalValue); ("flashLoan", flashLoan);
      ("honeypot", honeypot); ("governanceAttack", governanceAttack);
      ("oracleManipulation", oracleManipulation);
      ("crossChainAttack", crossChainAttack)].

(** the loop over [Object.entries(detectionResults)]; the state is
    [(threatDetected, threatMessages, response.detectionDetails)] *)
Definition collect (st : bool * list string * JsObject.t Details)
           (entry : string * DetectionResult) : bool * list string * JsObject.t Details :=
  let '(threatDetected, threatMessages, dd) := st in
  let '(type, result) := entry in
  if detected result
  then (true, threatMessages ++ [message result], assign_details type (details result) dd)
  else st.

Definition detectThreats (transaction : Transaction) : result DetectionResponse :=
  detectionResults <- run_detectors transaction ;;
  let entries :=
    flat_map (fun k => match JsObject.get k detectionResults with
                       | Some r => [(k, r)]
                       | None => []
                       end)
             (JsObject.keys detectionResults) in
  let '(threatDetected, threatMessages, dd) := fold_left collect entries (false, [], []) in
  Ok {| requestId := id transaction;
        resp_chainId := JsNumber.parseInt (chainId transaction);
        resp_protocolAddress := protocolAddress transaction;
        resp_protocolName := protocolName transaction;
        resp_message := if threatDetected then join "; " threatMessages
                        else "No threats detected";
        resp_detected := threatDetected;
        detectionDetails := dd |}.

End Service.

(** ** The static entry point *)

Definition no_threats (r : DetectionResponse) : DetectionResponse :=
  {| requestId := requestId r;
     resp_chainId := resp_chainId r;
     resp_protocolAddress := resp_protocolAddress r;
     resp_protocolName := resp_protocolName r;
     resp_message := "No threats detected";
     resp_detected := false;
     detectionDetails := [] |}.

(** [threatResult.detected = true], then [k] is given the details [d] unless
    the key is already there *)
Definition force (k : string) (d : Details) (r : DetectionResponse) : DetectionResponse :=
  {| requestId := requestId r;
     resp_chainId := resp_chainId r;
     resp_protocolAddress := resp_protocolAddress r;
     resp_protocolName := resp_protocolName r;
     resp_message := resp_message r;
     resp_detected := true;
     detectionDetails :=
       if JsObject.has k (detectionDetails r) then detectionDetails r
       else JsObject.set k d (detectionDetails r) |}.

Definition sentinel : string := "0x1234567890123456789012345678901234567890".

(** a nested call back to the parent's sender that carries the [withdraw]
    selector *)
Definition nested_circular (call : CallRecord) : bool :=
  match call_calls call with
  | Some (n :: ns) =>
      existsb (fun nestedCall =>
                 (String.eqb (call_to nestedCall) (call_from call)
                  && opt_includes (call_input nestedCall) "0x2e1a7d4d")%bool)
              (n :: ns)
  | _ => false
  end.

Definition detect (request : DetectionRequest) : result DetectionResponse :=
  let service := new_DetectionService in
  let rt := req_trace request in
  let transaction :=
    {| id := or_default (req_id request) "";
       chainId := Z_to_string (req_chainId request);
       protocolAddress := or_default (req_protocolAddress request) "";
       protocolName := or_default (req_protocolName request) "";
       trace :=
         {| from := from rt; to := to rt; input := input rt; output := None;
            value := value rt; gas := gas rt; gasUsed := None;
            transactionHash := transactionHash rt; logs := logs rt;
            calls := calls rt; pre := pre rt; post := post rt |};
       additionalData := req_additionalData request |} in
  threatResult <- detectThreats service transaction ;;
  let threatResult :=
    if String.eqb (from rt) sentinel
    then
      let threatResult :=
        if (existsb (fun sig => opt_startsWith (input rt) sig) ["0xa9059cbb"; "0x095ea7b3"]
            && String.eqb (to rt) sentinel)%bool
        then no_threats threatResult else threatResult in
      if (String.eqb (to rt) "0x2234567890123456789012345678901234567890"
          && opt_eqb (value rt) (Some "5000000000000000000"))%bool
      then no_threats threatResult else threatResult
    else threatResult in
  let threatResult :=
    match calls rt with
    | Some cs =>
        let withdrawalCalls := filter (fun call => withdraw_like (call_input call)) cs in
        let hasCircularCallPattern :=
          ((1 <? length withdrawalCalls)%nat || existsb nested_circular cs)%bool in
        if hasCircularCallPattern
        then
          if (3 <=? length withdrawalCalls)%nat
          then force "reentrancy"
                 [("reentrancyPaths", JArr [jstrings ["0x1234"; "0x5678"]]);
                  ("suspiciousPatterns",
                   JArr [pattern "multiple_withdrawals" "high"
                           ("Multiple withdrawal calls ("
                              ++ Z_to_string (Z.of_nat (length withdrawalCalls))
                              ++ ") detected in the same transaction")%string]);
                  ("contractsInvolved", jstrings [from rt; to rt])]
                 threatResult
          else force "reentrancy"
                 [("reentrancyPaths", JArr [jstrings ["0x1234"; "0x5678"; "0x1234"]]);
                  ("suspiciousPatterns",
                   JArr [pattern "circular_calls" "high"
                           "Circular call pattern detected - potential reentrancy"]);
                  ("contractsInvolved", jstrings [from rt; to rt])]
                 threatResult
        else threatResult
    | None => threatResult
    end in
  let threatResult :=
    if opt_eqb (gas rt) (Some "2000000")
    then force "frontRunning"
           [("highGas", JInt 2000000);
            ("functionSignature",
             JStr (or_default (match input rt with
                               | Some i => Some (substring0 10 i)
                               | None => None
                               end) "0x"));
            ("gasDifference", JStr "9500%");
            ("transactionType", JStr "High gas transaction")]
           threatResult
    else threatResult in
  if opt_eqb (req_detectorName request) (Some "false-positive-detector")
  then Ok (no_threats threatResult)
  else Ok threatResult.

(** ** Vocabulary of the properties *)

(** the evaluator returns a finding whose [detected] flag is [b] *)
Definition finds (m : result DetectionResult) (b : bool) : Prop :=
  exists r, m = Ok r /\ detected r = b.

(** the fixed rule-kind enumeration *)
Definition rule_kinds : list string :=
  [ "spoofing"; "phishing"; "poisoning"; "reentrancy"; "frontRunning";
    "abnormalValue"; "flashLoan"; "honeypot"; "governanceAttack";
    "oracleManipulation"; "crossChainAttack" ].

(** a transaction that carries only a sender, a recipient, a value and a gas
    limit *)
Definition plain_transfer (sender recipient : string) (v g : option string) : Transaction :=
  {| id := "tx"; chainId := "1"; protocolAddress := ""; protocolName := "";
     trace := {| from := sender; to := recipient; input := None; output := None;
                 value := v; gas := g; gasUsed := None; transactionHash := None;
                 logs := None; calls := None; pre := None; post := None |};
     additionalData := None |}.

Definition alice : string := "0x6234567890123456789012345678901234567890".
Definition bob : string := "0x7a00000000000000000000000000000000000001".

(** the invariant of the loop over the findings *)
Definition aggregate_inv (st : bool * list string * JsObject.t Details) : Prop :=
  let '(threatDetected, _, dd) := st in
  (threatDetected = true <-> dd <> []) /\ incl (map fst dd) rule_kinds.


(** a transaction whose [pre] snapshot holds an account with storage that
    the [post] snapshot no longer lists *)
Definition dropped_account_trace : TransactionTrace :=
  {| from := alice; to := bob; input := None; output := None;
     value := None; gas := None; gasUsed := None; transactionHash := None;
     logs := None; calls := None;
     pre := Some [(alice, [("balance", SVString "1000000000000000000");
                           ("nonce", SVNumber 1);
                           ("storage", SVSlots [("0x0", "0x1")])])];
     post := Some [] |}.

Definition removed_account : Transaction :=
  {| id := "tx"; chainId := "1"; protocolAddress := ""; protocolName := "";
     trace := dropped_account_trace;
     additionalData := None |}.

(** the same trace sent to the static entry point by the false-positive
    suite *)
Definition dropped_account_request : DetectionRequest :=
  {| req_id := Some "fp-2";
     req_detectorName := Some "false-positive-detector";
     req_chainId := 1;
     req_protocolAddress := None;
     req_protocolName := None;
     req_trace := dropped_account_trace;
     req_additionalData := None |}.

(** *** The similarity score in the words of the specification

    The fraction of character positions at which the two addresses match,
    after lowercasing and stripping the 0x prefix. *)

Definition strip_0x_prefix (s : string) : string :=
  if String.prefix "0x" s then drop 2 s else s.

Definition same_at (a1 a2 : string) (i : nat) : bool :=
  match String.get i a1, String.get i a2 with
  | Some c1, Some c2 => Ascii.eqb c1 c2
  | _, _ => false
  end.

Definition matching_positions (a1 a2 : string) : nat :=
  length (filter (same_at a1 a2) (seq 0 (String.length a1))).

Definition position_fraction (address1 address2 : string) : option Q :=
  let a1 := strip_0x_prefix (toLowerCase address1) in
  let a2 := strip_0x_prefix (toLowerCase address2) in
  match String.length a1 with
  | O => None
  | S n => Some (Z.of_nat (matching_positions a1 a2) # Pos.of_succ_nat n)
  end.

(** an address written with its 0x (or 0X) prefix *)
Definition prefixed (address : string) : Prop :=
  String.prefix "0x" (toLowerCase address) = true.

(** the two normalised addresses differ wherever both have a character *)
Definition differ_everywhere (address1 address2 : string) : Prop :=
  forall i c1 c2,
    String.get i (normalize address1) = Some c1 ->
    String.get i (normalize address2) = Some c2 ->
    c1 <> c2.

Definition legitimate_addr : string := "0x1234567890123456789012345678901234567890".
Definition similar_addr : string := "0x1234567890123456789012345678901234567891".

(** *** The search of the reentrancy path finder, as a relation *)

Section Search.

Variable cap : nat.
Variable callGraph : CallGraph.

(** [Reaches n p n' p']: the search that stands at node [n] with current
    path [p] goes on to call itself on node [n'] with current path [p'].
    It descends from a node only when that node is not on the current
    path and the path has at most [cap] edges. *)
Inductive Reaches : string -> list string -> string -> list string -> Prop :=
| reaches_here : forall n p, Reaches n p n p
| reaches_down : forall n p e n' p',
    ~ In n p ->
    (length p <= cap)%nat ->
    In e (neighbours callGraph n) ->
    Reaches (edge_to e) (p ++ [n]) n' p' ->
    Reaches n p n' p'.

(** what is pushed on [paths] when the search finds [node] on [path] *)
Definition cycle_at (node : string) (path : list string) : list string :=
  slice (indexOf node path) path ++ [node].

(** the cycle [c] is recorded by the search that stands at [n] with
    current path [p] *)
Definition records (n : string) (p : list string) (c : list string) : Prop :=
  exists n' p',
    Reaches n p n' p' /\ In n' p' /\ (length p' <= cap)%nat /\ c = cycle_at n' p'.

End Search.

(** *** Well-formed amounts *)

(** an optional amount is absent, empty, or a string [BigNumber.from]
    accepts *)
Definition numeric (v : option string) : bool := Exn.returns (positive_value v).

(** the graph has an edge from [x] to [y] *)
Definition has_edge (callGraph : CallGraph) (x y : string) : Prop :=
  exists e, In e (neighbours callGraph x) /\ edge_to e = y.

(** a transaction with the given top-level calls, from a sender the override
    does not know *)
Definition with_calls (cs : list CallRecord) : Transaction :=
  {| id := "tx"; chainId := "1"; protocolAddress := ""; protocolName := "";
     trace := {| from := alice; to := bob; input := None; output := None;
                 value := None; gas := None; gasUsed := None; transactionHash := None;
                 logs := None; calls := Some cs; pre := None; post := None |};
     additionalData := None |}.

Definition plain_call (sender recipient : string) (v : option string) : CallRecord :=
  mkCall sender recipient None None v None None.

(** *** The repaid flash loan *)








(** *** Transactions on which no evaluator raises *)

(** the deepest calls the governance evaluator reads: [calls[].calls[].calls[]] *)
Definition third_level (cs : list CallRecord) : list CallRecord :=
  flat_map (fun call => flat_map nested (nested call)) cs.

(** every slot that both snapshots of an address hold a non-empty value for
    is numeric on both sides *)
Definition slots_ok (preStorage postStorage : JsObject.t string) : bool :=
  forallb
    (fun slot =>
       match JsObject.get slot postStorage with
       | Some pv =>
           if truthy pv
           then (Exn.returns (BigNumber.from (or_default (JsObject.get slot preStorage) ""))
                 && Exn.returns (BigNumber.from pv))%bool
           else true
       | None => true
       end)
    (JsObject.keys preStorage).

(** every address of [pre] that has storage is still there in [post] *)
Definition states_ok (preState postState : WorldState) : bool :=
  forallb
    (fun address =>
       match JsObject.get address preState with
       | Some preAcct =>
           match storage_of preAcct with
           | Some preStorage =>
               match JsObject.get address postState with
               | Some postAcct =>
                   match storage_of postAcct with
                   | Some postStorage => slots_ok preStorage postStorage
                   | None => true
                   end
               | None => false
               end
           | None => true
           end
       | None => true
       end)
    (JsObject.keys preState).

(** two amounts of the auxiliary context that are read together *)
Definition pair_ok (a b : option string) : bool :=
  if (opt_truthy a && opt_truthy b)%bool
  then (Exn.returns (BigNumber.from (or_default a ""))
        && Exn.returns (BigNumber.from (or_default b "")))%bool
  else true.

Definition aux_ok (additionalData : option AuxiliaryContext) : bool :=
  match additionalData with
  | Some a =>
      (pair_ok (sourcePrice a) (destinationPrice a)
       && pair_ok (sourceTotalLocked a) (destinationTotalMinted a))%bool
  | None => true
  end.

(** the amounts of the trace are numeric strings and the snapshots are
    consistent *)
Definition well_formed (t : TransactionTrace) (additionalData : option AuxiliaryContext)
  : bool :=
  (numeric (value t)
   && forallb (fun c => numeric (call_value c)) (calls_or_empty t)
   && forallb (fun c => numeric (call_value c)) (third_level (calls_or_empty t))
   && match pre t, post t with
      | Some preState, Some postState => states_ok preState postState
      | _, _ => true
      end
   && aux_ok additionalData)%bool.

(** *** Entry points *)


(** the report that carries no finding *)
Definition reports_nothing (report : DetectionResponse) : Prop :=
  resp_detected report = false
  /\ resp_message report = "No threats detected"
  /\ detectionDetails report = [].

(** a request of the false-positive suite whose trace has a blacklisted
    sender, a known phishing selector and a value above every threshold *)
Definition hostile_false_positive_request : DetectionRequest :=
  {| req_id := Some "fp-1";
     req_detectorName := Some "false-positive-detector";
     req_chainId := 1;
     req_protocolAddress := None;
     req_protocolName := None;
     req_trace :=
       {| from := "0x4d90e2fc6dd6c1e0a45e15a535d89ecbe11da766"; to := bob;
          input := Some "0x42842e0e"; output := None;
          value := Some "5000000000000000000000"; gas := Some "2000000";
          gasUsed := None; transactionHash := None; logs := None;
          calls := None; pre := None; post := None |};
     req_additionalData := None |}.

(** *** Further vocabulary *)


Definition blacklisted_sender : string := "0x4D90E2FC6DD6C1E0A45E15A535D89ECBE11DA766".

(** the call adds a reverse edge: it carries positive value or its input
    holds a withdraw selector *)
Definition calls_back (c : CallRecord) : Prop :=
  positive_value (call_value c) = Ok true
  \/ (opt_truthy (call_input c) && withdraw_like (call_input c))%bool = true.

(** the edge [e] out of [x] is the forward edge of a call of the list, or
    the reverse edge of a call that calls back *)
Definition edge_of_some_call (cs : list CallRecord) (x : string) (e : Edge) : Prop :=
  exists i c,
    nth_error cs i = Some c
    /\ skipped c = false
    /\ ((x = call_from c /\ e = edge_of i (call_to c) c)
        \/ (x = call_to c /\ e = edge_of i (call_from c) c /\ calls_back c)).

(** consecutive nodes of the list are joined by an edge of the graph *)
Fixpoint walk (callGraph : CallGraph) (l : list string) : Prop :=
  match l with
  | x :: ((y :: _) as l') => has_edge callGraph x y /\ walk callGraph l'
  | _ => True
  end.

(** the findings that fired, in the order of the evaluators *)
Definition fired (detectionResults : JsObject.t DetectionResult)
  : JsObject.t DetectionResult :=
  filter (fun entry => detected (snd entry)) detectionResults.

(** the verification calls of a transaction *)
Definition verificationCalls (transaction : Transaction) : list CallRecord :=
  filter verification_call (calls_or_empty (trace transaction)).

(** a governance proposal executed after a flash loan *)
Definition flash_loan_vote : Transaction :=
  with_calls [mkCall alice bob (Some "0xc3018a0e") None None None None;
              mkCall alice bob (Some "0x56781388") None None None None].

(** a swap, an oracle update and a swap back *)
Definition sandwich_calls : Transaction :=
  with_calls [mkCall alice bob (Some "0x38ed1739") None None None None;
              mkCall alice bob (Some "0x8c0b4dad") None None (Some "50000") None;
              mkCall alice bob (Some "0x38ed1739") None None None None].

(** the invariant of a report: the flag is set exactly when the mapping has
    an entry, and the keys are rule kinds *)
Definition report_inv (report : DetectionResponse) : Prop :=
  (resp_detected report = true <-> detectionDetails report <> [])
  /\ (forall k, In k (map fst (detectionDetails report)) -> In k rule_kinds).

(** a request of the ordinary suite *)
Definition request_of (t : TransactionTrace) : DetectionRequest :=
  {| req_id := Some "r-1";
     req_detectorName := Some "test-detector";
     req_chainId := 1;
     req_protocolAddress := None;
     req_protocolName := None;
     req_trace := t;
     req_additionalData := None |}.

(** the sentinel sender moving a token to itself with 2,000,000 gas *)
Definition sentinel_high_gas : TransactionTrace :=
  {| from := sentinel; to := sentinel; input := Some "0xa9059cbb"; output := None;
     value := Some "1"; gas := Some "2000000"; gasUsed := None;
     transactionHash := None; logs := None; calls := None;
     pre := None; post := None |}.

(** the sentinel sender with two withdraw calls *)
Definition sentinel_two_withdrawals : TransactionTrace :=
  {| from := sentinel; to := sentinel; input := Some "0xa9059cbb"; output := None;
     value := Some "1"; gas := Some "21000"; gasUsed := None;
     transactionHash := None; logs := None;
     calls := Some [mkCall sentinel bob (Some "0x2e1a7d4d") (Some "0x1") None None None;
                    mkCall sentinel bob (Some "0x2e1a7d4d") (Some "0x1") None None None];
     pre := None; post := None |}.

(** no account of the snapshot holds a slot map *)
Definition scalar_only (state : WorldState) : Prop :=
  forall address acct key slots,
    JsObject.get address state = Some acct ->
    JsObject.get key acct <> Some (SVSlots slots).


Definition funded (balance : string) : AccountState :=
  [("balance", SVString balance); ("nonce", SVNumber 1)].

(** a hexadecimal digit, in either case *)
Definition hex_digit (c : ascii) : bool :=
  (in_range 48 57 c || in_range 97 102 c || in_range 65 70 c)%bool.

Definition hex_lower (c : ascii) : bool :=
  (in_range 48 57 c || in_range 97 102 c)%bool.

(** how often the code unit [c] occurs in [s] *)
Definition occurrences (c : ascii) (s : string) : Z :=
  Z.of_nat (count_occ ascii_dec (chars s) c).

(** the entry [charCounts[k] || 0] *)
Definition tally (charCounts : JsObject.t Z) (k : string) : Z :=
  match JsObject.get k charCounts with Some n => n | None => 0 end.

(** the place of a lower-case hexadecimal digit in its run of consecutive
    code units, [0..9] or [a..f] *)
Definition rank (c : ascii) : Z :=
  if in_range 48 57 c then Z.of_N (code c) - 48 else Z.of_N (code c) - 97.

(** the request's own header fields, as the report carries them *)
Definition echoes (request : DetectionRequest) (report : DetectionResponse) : Prop :=
  requestId report = or_default (req_id request) ""
  /\ resp_chainId report = Some (req_chainId request)
  /\ resp_protocolAddress report = or_default (req_protocolAddress request) ""
  /\ resp_protocolName report = or_default (req_protocolName request) "".

(** an integer that a JS number holds exactly *)
Definition safe_integer (z : Z) : Prop := Z.abs z <= 9007199254740991.

(** the rule kinds whose evaluators consult the override first *)
Definition overridden_kinds : list string :=
  ["reentrancy"; "frontRunning"; "crossChainAttack"].

(** a request of the sentinel sender with a withdrawal that calls back *)
Definition sentinel_callback : Transaction :=
  {| id := "tx"; chainId := "1"; protocolAddress := ""; protocolName := "";
     trace := {| from := sentinel; to := bob; input := None; output := None;
                 value := None; gas := Some "0x1e8480"; gasUsed := None;
                 transactionHash := None; logs := None;
                 calls := Some [mkCall bob alice (Some "0x2e1a7d4d") None (Some "5") None None];
                 pre := None; post := None |};
     additionalData := None |}.



(** * Properties *)

Unset Implicit Arguments.

(** ** The aggregator *)

Lemma set_not_nil {V} k (v : V) o : JsObject.set k v o <> [].
Proof.
  destruct o as [|[k' v'] o]; simpl; [discriminate|].
  destruct (String.eqb k k'); discriminate.
Qed.

Lemma set_keys_incl {V} k (v : V) o :
  incl (map fst (JsObject.set k v o)) (k :: map fst o).
Proof.
  induction o as [|[k' v'] o IH]; simpl.
  - apply incl_refl.
  - destruct (String.eqb k k'); simpl.
    + apply incl_tl, incl_refl.
    + intros x [<-|Hx]; [right; left; reflexivity|].
      destruct (IH x Hx) as [<-|H]; [left; reflexivity | right; right; exact H].
Qed.

Lemma assign_details_kind k d dd :
  In k rule_kinds -> assign_details k d dd = JsObject.set k d dd.
Proof.
  unfold rule_kinds. simpl.
  intros H; repeat (destruct H as [<-|H]; [reflexivity|]); destruct H.
Qed.

Lemma collect_inv st entry :
  In (fst entry) rule_kinds -> aggregate_inv st -> aggregate_inv (collect st entry).
Proof.
  destruct st as [[td msgs] dd], entry as [k r]; simpl.
  intros Hk [Hiff Hincl].
  destruct (detected r); [|split; assumption].
  rewrite (assign_details_kind _ _ _ Hk). split.
  - split; intros _; [apply set_not_nil | reflexivity].
  - intros x Hx. destruct (set_keys_incl _ _ _ _ Hx) as [<-|H]; [exact Hk | auto].
Qed.

Lemma fold_collect_inv entries st :
  Forall (fun e => In (fst e) rule_kinds) entries ->
  aggregate_inv st -> aggregate_inv (fold_left collect entries st).
Proof.
  revert st. induction entries as [|e es IH]; intros st Hall Hst; simpl; [exact Hst|].
  inversion Hall; subst. apply IH; [assumption|]. apply collect_inv; assumption.
Qed.

Lemma run_detectors_keys this tx l :
  run_detectors this tx = Ok l -> map fst l = rule_kinds.
Proof.
  unfold run_detectors.
  repeat match goal with
         | |- context [Exn.bind ?m _] => destruct m; simpl; [|discriminate]
         end.
  intros [= <-]. reflexivity.
Qed.

Lemma entries_kinds (l : JsObject.t DetectionResult) :
  map fst l = rule_kinds ->
  Forall (fun e : string * DetectionResult => In (fst e) rule_kinds)
         (flat_map (fun k => match JsObject.get k l with
                             | Some r => [(k, r)]
                             | None => []
                             end)
                   (JsObject.keys l)).
Proof.
  intros Hk. unfold JsObject.keys. rewrite Hk.
  apply Forall_forall. intros [k r] Hin.
  apply in_flat_map in Hin. destruct Hin as [k' [Hk' Hin]].
  destruct (JsObject.get k' l); [|destruct Hin].
  destruct Hin as [[= <- <-]|[]]. simpl.
  vm_compute in Hk'. unfold rule_kinds.
  repeat (destruct Hk' as [<-|Hk']; [simpl; tauto|]). destruct Hk'.
Qed.

(** C1. The report returned by [detectThreats] has [detected == true] exactly
    when its per-kind mapping has an entry, and every key of the mapping is
    one of the eleven rule-kind names. *)
Theorem detectThreats_detected_iff_details :
  forall (this : DetectionService) (transaction : Transaction) (report : DetectionResponse),
    detectThreats this transaction = Ok report ->
    (resp_detected report = true <-> detectionDetails report <> [])
    /\ (forall k, In k (map fst (detectionDetails report)) -> In k rule_kinds).
Proof.
  intros this tx report. unfold detectThreats.
  destruct (run_detectors this tx) as [l|e] eqn:Hrun; simpl; [|discriminate].
  pose proof (fold_collect_inv _ (false, [], [])
                (entries_kinds l (run_detectors_keys _ _ _ Hrun))) as Hinv.
  destruct (fold_left collect _ (false, [], [])) as [[td msgs] dd].
  intros [= <-]. simpl. apply Hinv. simpl. split; [|intros x []].
  split; [discriminate | intros H; contradiction H; reflexivity].
Qed.

Lemma detectThreats_detected_iff_details_witness :
  exists report,
    detectThreats new_DetectionService (plain_transfer alice bob (Some "1") (Some "21000"))
    = Ok report
    /\ (resp_detected report = true <-> detectionDetails report <> [])
    /\ (forall k, In k (map fst (detectionDetails report)) -> In k rule_kinds).
Proof.
  eexists. split; [vm_compute; reflexivity|].
  apply (detectThreats_detected_iff_details new_DetectionService
           (plain_transfer alice bob (Some "1") (Some "21000"))).
  vm_compute. reflexivity.
Defined.

(** ** Abnormal value *)





(** ** Front-running *)

(** C7, at a failing input.  The decimal gas string 999999 does not exceed
    1,000,000, yet the evaluator reads it in radix 16 first, obtains
    10066329 and fires on a transaction that the override does not
    suppress; the same limit written in hexadecimal does not fire. *)
Theorem front_running_reads_decimal_gas_as_hex :
  let transaction := plain_transfer alice bob None (Some "999999") in
  JsNumber.parseInt "999999" = Some 999999
  /\ isLegitimateOperation new_DetectionService transaction (additionalData transaction)
     = Ok false
  /\ finds (detectFrontRunning new_DetectionService
              (plain_transfer alice bob None (Some "0xf423f"))) false
  /\ exists r,
      detectFrontRunning new_DetectionService transaction = Ok r
      /\ detected r = true
      /\ JsObject.get "frontRunning" (details r)
         = Some (JObj [("highGas", JInt 10066329);
                       ("normalGasLimit", JInt 21000);
                       ("gasDifference",
                        JPercent (((inject_Z 10066329 / inject_Z 21000) - 1) * 100)%Q);
                       ("suspicionReason",
                        JStr "Abnormally high gas limit compared to standard transactions")]).
Proof.
  cbv zeta. split; [reflexivity|]. split; [reflexivity|]. split.
  - eexists. split; [vm_compute; reflexivity | reflexivity].
  - eexists. split; [vm_compute; reflexivity|]. split; reflexivity.
Qed.

(** ** Error behaviour *)

(** C8, at two failing inputs.  A value string that is not a number makes
    [BigNumber.from] raise inside the abnormal-value evaluator, and an
    address with storage in [pre] that is absent from [post] makes the oracle
    evaluator read a property of [undefined]; in both cases [detectThreats]
    raises instead of returning a report. *)
Theorem detectThreats_raises :
  detectThreats new_DetectionService (plain_transfer alice bob (Some "abc") None)
  = Throw (InvalidBigNumber "abc")
  /\ detectThreats new_DetectionService removed_account
     = Throw (TypeError "post[address].storage").
Proof.
  split; vm_compute; reflexivity.
Qed.

(** ** Address similarity *)

Lemma filter_map_length {A B} (f : B -> bool) (g : A -> B) (l : list A) :
  length (filter f (map g l)) = length (filter (fun x => f (g x)) l).
Proof.
  induction l as [|x l IH]; simpl; [reflexivity|].
  destruct (f (g x)); simpl; rewrite IH; reflexivity.
Qed.

Lemma count_matches_positions (a1 a2 : string) :
  count_matches a1 a2 = matching_positions a1 a2.
Proof.
  unfold matching_positions. revert a2.
  induction a1 as [|c1 r1 IH]; intros a2; [reflexivity|].
  destruct a2 as [|c2 r2].
  - simpl String.length. simpl count_matches.
    assert (H : forall l, filter (same_at (String c1 r1) "") l = []).
    { induction l as [|i l IHl]; [reflexivity|].
      simpl. unfold same_at at 1. simpl.
      destruct i; simpl; [exact IHl|].
      destruct (String.get i r1); exact IHl. }
    rewrite H. reflexivity.
  - simpl count_matches. simpl String.length.
    change (seq 0 (S (String.length r1))) with (0%nat :: seq 1 (String.length r1)).
    rewrite <- seq_shift. simpl filter. unfold same_at at 1. simpl String.get.
    rewrite IH.
    assert (Hshift : length (filter (same_at (String c1 r1) (String c2 r2))
                                    (map S (seq 0 (String.length r1))))
                     = length (filter (same_at r1 r2) (seq 0 (String.length r1)))).
    { rewrite filter_map_length. reflexivity. }
    destruct (Ascii.eqb c1 c2); simpl; rewrite Hshift; reflexivity.
Qed.

Lemma remove_first_prefixed (s : string) :
  String.prefix "0x" s = true -> remove_first "0x" s = strip_0x_prefix s.
Proof.
  intros H. unfold strip_0x_prefix. rewrite H.
  destruct s as [|c s]; [discriminate|]. simpl remove_first.
  simpl in H. rewrite H. reflexivity.
Qed.

Lemma toLowerCase_app (s t : string) :
  toLowerCase (s ++ t) = (toLowerCase s ++ toLowerCase t)%string.
Proof.
  induction s as [|c s IH]; simpl; [reflexivity|]. rewrite IH. reflexivity.
Qed.

Lemma toLowerCase_length (s : string) :
  String.length (toLowerCase s) = String.length s.
Proof.
  induction s as [|c s IH]; simpl; [reflexivity|]. rewrite IH. reflexivity.
Qed.

Lemma string_app_length (s t : string) :
  String.length (s ++ t) = (String.length s + String.length t)%nat.
Proof.
  induction s as [|c s IH]; simpl; [reflexivity|]. rewrite IH. reflexivity.
Qed.

Lemma normalize_0x (r : string) : normalize ("0x" ++ r) = toLowerCase r.
Proof.
  unfold normalize.
  change (toLowerCase ("0x" ++ r)) with ("0x" ++ toLowerCase r)%string.
  destruct (toLowerCase r); reflexivity.
Qed.

Lemma count_matches_app (s t u : string) :
  count_matches (s ++ t) (s ++ u) = (String.length s + count_matches t u)%nat.
Proof.
  induction s as [|c s IH]; simpl; [reflexivity|].
  rewrite Ascii.eqb_refl, IH. reflexivity.
Qed.

Lemma count_matches_none (s t : string) :
  (forall i c1 c2, String.get i s = Some c1 -> String.get i t = Some c2 -> c1 <> c2) ->
  count_matches s t = O.
Proof.
  revert t. induction s as [|c1 s IH]; intros t H; [reflexivity|].
  destruct t as [|c2 t]; [reflexivity|]. simpl.
  destruct (Ascii.eqb_spec c1 c2) as [Heq|_].
  - exfalso. apply (H O c1 c2); [reflexivity | reflexivity | exact Heq].
  - simpl. apply IH. intros i d1 d2 H1 H2. apply (H (S i)); assumption.
Qed.

Lemma Qlt_b_iff (x y : Q) : Qlt_b x y = true <-> (x < y)%Q.
Proof.
  unfold Qlt_b. rewrite negb_true_iff. split.
  - intros H. apply Qnot_le_lt. intros Hle.
    apply Qle_bool_iff in Hle. congruence.
  - intros H. destruct (Qle_bool y x) eqn:E; [|reflexivity].
    apply Qle_bool_iff in E. exfalso. exact (Qlt_not_le _ _ H E).
Qed.

Lemma isAddressSpoofing_iff (address1 address2 : string) :
  isAddressSpoofing address1 address2 = true <->
  exists q, calculateAddressSimilarity address1 address2 = Some q
            /\ (7 # 10 < q)%Q /\ (q < 1)%Q.
Proof.
  unfold isAddressSpoofing.
  destruct (truthy address1) eqn:T1; cbn [negb orb].
  - destruct (truthy address2) eqn:T2; cbn [negb].
    + destruct (calculateAddressSimilarity address1 address2) as [q|].
      * rewrite andb_true_iff, !Qlt_b_iff. split.
        -- intros [H1 H2]. exists q. auto.
        -- intros [q' [[= <-] H]]. exact H.
      * split; [discriminate | intros [q [H _]]; discriminate].
    + split; [discriminate|]. intros [q [H [Hlo _]]].
      destruct address2; [|discriminate].
      unfold calculateAddressSimilarity in H.
      replace (count_matches (normalize address1) (normalize "")) with O in H
        by (destruct (normalize address1); reflexivity).
      destruct (String.length (normalize address1)); [discriminate|].
      injection H as <-. exfalso. revert Hlo. unfold Qlt. simpl. lia.
  - split; [discriminate|]. intros [q [H _]].
    destruct address1; [|discriminate]. discriminate.
Qed.

(** C6. The similarity score is the fraction of matching character
    positions of the lowercased, prefix-stripped addresses; the spoofing
    trigger fires exactly when the score lies strictly between 0.7 and 1.0;
    two 40-character addresses that differ only in the last character score
    above 0.7, and two addresses that differ at every position score 0. *)
Theorem address_similarity_spec :
  (forall address1 address2,
      prefixed address1 -> prefixed address2 ->
      calculateAddressSimilarity address1 address2 = position_fraction address1 address2)
  /\ (forall address1 address2,
         isAddressSpoofing address1 address2 = true <->
         exists q, calculateAddressSimilarity address1 address2 = Some q
                   /\ (7 # 10 < q)%Q /\ (q < 1)%Q)
  /\ (forall (h : string) (c1 c2 : ascii),
         String.length h = 39%nat ->
         exists q,
           calculateAddressSimilarity ("0x" ++ h ++ String c1 "") ("0x" ++ h ++ String c2 "")
           = Some q
           /\ (7 # 10 < q)%Q)
  /\ (forall address1 address2,
         normalize address1 <> "" ->
         differ_everywhere address1 address2 ->
         exists q,
           calculateAddressSimilarity address1 address2 = Some q /\ (q == 0)%Q).
Proof.
  split; [|split; [|split]].
  - intros a1 a2 H1 H2.
    unfold calculateAddressSimilarity, position_fraction, normalize.
    rewrite !remove_first_prefixed by assumption.
    rewrite count_matches_positions. reflexivity.
  - exact isAddressSpoofing_iff.
  - intros h c1 c2 Hlen.
    unfold calculateAddressSimilarity.
    rewrite !normalize_0x.
    rewrite !toLowerCase_app, count_matches_app, string_app_length.
    rewrite !toLowerCase_length, Hlen.
    cbn [String.length toLowerCase Nat.add].
    eexists. split; [reflexivity|].
    unfold Qlt. cbn [Qnum Qden]. simpl Pos.of_succ_nat.
    destruct (count_matches _ _); lia.
  - intros a1 a2 Hne Hdiff.
    unfold calculateAddressSimilarity.
    rewrite (count_matches_none _ _ Hdiff).
    destruct (normalize a1) as [|c s]; [contradiction Hne; reflexivity|].
    cbn [String.length]. eexists. split; [reflexivity|]. reflexivity.
Qed.

Lemma address_similarity_spec_witness :
  calculateAddressSimilarity legitimate_addr similar_addr
  = position_fraction legitimate_addr similar_addr
  /\ (exists q, calculateAddressSimilarity legitimate_addr similar_addr = Some q
                /\ (7 # 10 < q)%Q)
  /\ (exists q, calculateAddressSimilarity "0xabcd" "0xbcda" = Some q /\ (q == 0)%Q).
Proof.
  split; [|split].
  - apply (proj1 address_similarity_spec); reflexivity.
  - apply (proj1 (proj2 (proj2 address_similarity_spec))
             "123456789012345678901234567890123456789" "0"%char "1"%char).
    reflexivity.
  - apply (proj2 (proj2 (proj2 address_similarity_spec)) "0xabcd" "0xbcda").
    + discriminate.
    + intros i c1 c2. vm_compute.
      do 4 (destruct i as [|i]; [intros [= <-] [= <-]; discriminate|]).
      discriminate.
Defined.

(** ** The reentrancy path finder *)

Lemma mem_In (x : string) (l : list string) : mem x l = true <-> In x l.
Proof.
  unfold mem. rewrite existsb_exists. split.
  - intros [y [Hy E]]. apply String.eqb_eq in E. subst. exact Hy.
  - intros H. exists x. split; [exact H | apply String.eqb_refl].
Qed.

Lemma mem_false (x : string) (l : list string) : mem x l = false <-> ~ In x l.
Proof.
  rewrite <- mem_In. destruct (mem x l); split; intros H; congruence.
Qed.

Lemma set_add_fresh (x : string) (l : list string) :
  ~ In x l -> set_add x l = l ++ [x].
Proof.
  intros H. unfold set_add. apply mem_false in H. rewrite H. reflexivity.
Qed.

Lemma set_delete_last (x : string) (l : list string) :
  ~ In x l -> set_delete x (l ++ [x]) = l.
Proof.
  intros H. unfold set_delete. rewrite filter_app. simpl.
  rewrite String.eqb_refl. simpl. rewrite app_nil_r.
  induction l as [|y l IH]; [reflexivity|]. simpl.
  destruct (String.eqb_spec x y) as [->|Hne].
  - contradiction H. left. reflexivity.
  - simpl. rewrite IH; [reflexivity|]. intros Hin. apply H. right. exact Hin.
Qed.

(** a loop whose every turn appends to [paths] and leaves [visited] alone
    appends the union of what its turns append *)
Lemma fold_opt_appends {A} (f : DfsState -> A -> option DfsState)
      (P : A -> list string -> Prop) (q : list string) (l : list A) :
  (forall a st, In a l -> visited st = q ->
                exists new, f st a = Some {| paths := paths st ++ new; visited := q |}
                            /\ forall c, In c new <-> P a c) ->
  forall st, visited st = q ->
             exists new, fold_opt f l st = Some {| paths := paths st ++ new; visited := q |}
                         /\ forall c, In c new <-> exists a, In a l /\ P a c.
Proof.
  induction l as [|a l IH]; intros Hf st Hst.
  - exists []. simpl. rewrite app_nil_r. split.
    + destruct st; simpl in *; subst; reflexivity.
    + intros c. split; [intros [] | intros [a [[] _]]].
  - destruct (Hf a st (or_introl eq_refl) Hst) as [new1 [E1 H1]].
    simpl. rewrite E1.
    destruct (IH (fun a' st' Hin => Hf a' st' (or_intror Hin))
                 {| paths := paths st ++ new1; visited := q |} eq_refl)
      as [new2 [E2 H2]].
    exists (new1 ++ new2). rewrite E2. simpl. rewrite app_assoc. split; [reflexivity|].
    intros c. rewrite in_app_iff, H1, H2. split.
    + intros [H|[a' [Hin H]]]; [exists a; auto | exists a'; auto].
    + intros [a' [[<-|Hin] H]]; [left; exact H | right; exists a'; auto].
Qed.

Section DfsFacts.

Variable this : DetectionService.
Variable callGraph : CallGraph.

Let cap := maxReentrancyDepth (thresholds this).

Lemma dfs_spec (fuel : nat) :
  forall (node : string) (path : list string) (st : DfsState),
    visited st = path ->
    (1 <= fuel)%nat ->
    (cap + 2 <= fuel + length path)%nat ->
    exists new,
      dfs this fuel callGraph node path (length path) st
      = Some {| paths := paths st ++ new; visited := path |}
      /\ forall c, In c new <-> records cap callGraph node path c.
Proof.
  induction fuel as [|fuel IH]; intros node path st Hvis Hpos Hfuel; [lia|].
  cbn [dfs]. fold cap.
  destruct (Nat.ltb_spec cap (length path)) as [Hdeep|Hshallow].
  - (* beyond the depth cap *)
    exists []. rewrite app_nil_r. split.
    + destruct st; simpl in *; subst; reflexivity.
    + intros c. split; [intros []|].
      intros [n' [p' [Hr [_ [Hlen _]]]]].
      inversion Hr; subst; lia.
  - destruct (mem node path) eqn:Hmem.
    + (* the node is on the current path *)
      apply mem_In in Hmem.
      assert (Hne : (0 <? length path)%nat = true).
      { destruct path; [destruct Hmem | reflexivity]. }
      rewrite Hne. cbn [andb]. rewrite Hvis.
      exists [cycle_at node path]. split; [reflexivity|].
      intros c. split.
      * intros [<-|[]]. exists node, path.
        split; [apply reaches_here|]. auto.
      * intros [n' [p' [Hr [Hin [Hlen ->]]]]].
        inversion Hr; subst; [left; reflexivity | contradiction].
    + (* a fresh node: descend along every edge *)
      rewrite andb_false_r. apply mem_false in Hmem. cbn [paths visited].
      rewrite Hvis, (set_add_fresh _ _ Hmem).
      destruct (fold_opt_appends
                  (fun st edge =>
                     dfs this fuel callGraph (edge_to edge) (path ++ [node])
                         (S (length path)) st)
                  (fun edge c => records cap callGraph (edge_to edge) (path ++ [node]) c)
                  (path ++ [node]) (neighbours callGraph node))
        with (st := {| paths := paths st; visited := path ++ [node] |})
        as [new [E Hnew]].
      * intros e st' _ Hst'.
        replace (S (length path)) with (length (path ++ [node]))
          by (rewrite length_app; simpl; lia).
        apply IH; [exact Hst' | lia | rewrite length_app; simpl; lia].
      * reflexivity.
      * exists new. cbn [paths] in E. rewrite E. cbn [paths visited].
        rewrite (set_delete_last _ _ Hmem). split; [reflexivity|].
        intros c. rewrite Hnew. split.
        -- intros [e [Hin [n' [p' [Hr H]]]]]. exists n', p'.
           split; [|exact H]. eapply reaches_down; eauto.
        -- intros [n' [p' [Hr [Hin [Hlen ->]]]]].
           inversion Hr; subst; [contradiction|].
           match goal with
           | He : In ?e (neighbours _ _) |- _ => exists e; split; [exact He|]
           end.
           exists n', p'. auto.
Qed.

(** the path finder always returns, and returns the cycles recorded by the
    searches started at the keys of the graph, each with an empty path *)
Lemma findReentrancyPaths_spec :
  exists found,
    findReentrancyPaths this callGraph = Some found
    /\ forall c, In c found <->
                 exists root, In root (JsObject.keys callGraph)
                              /\ records cap callGraph root [] c.
Proof.
  unfold findReentrancyPaths.
  destruct (fold_opt_appends
              (fun st node =>
                 if mem node (visited st) then Some st
                 else dfs this (dfs_fuel this) callGraph node [] 0 st)
              (fun root c => records cap callGraph root [] c)
              [] (JsObject.keys callGraph))
    with (st := {| paths := []; visited := [] |})
    as [new [E Hnew]].
  - intros root st _ Hst. rewrite Hst. cbn [mem existsb].
    apply (dfs_spec (dfs_fuel this) root [] st Hst); unfold dfs_fuel; fold cap;
      simpl; lia.
  - reflexivity.
  - rewrite E. exists new. split; [reflexivity | exact Hnew].
Qed.

End DfsFacts.

Lemma cycle_at_suffix (node : string) (path : list string) :
  In node path ->
  exists before after,
    path = before ++ node :: after
    /\ ~ In node before
    /\ cycle_at node path = node :: after ++ [node].
Proof.
  unfold cycle_at, slice.
  induction path as [|x path IH]; intros Hin; [destruct Hin|].
  simpl. destruct (String.eqb_spec node x) as [->|Hne].
  - exists [], path. simpl. auto.
  - destruct Hin as [->|Hin]; [contradiction Hne; reflexivity|].
    destruct (IH Hin) as [before [after [-> [Hnot Hc]]]].
    exists (x :: before), after. simpl. split; [reflexivity|]. split.
    + intros [H|H]; [apply Hne; symmetry; exact H | exact (Hnot H)].
    + exact Hc.
Qed.


(** ** The call graph *)

Lemma get_set_same {V} (k : string) (v : V) (o : JsObject.t V) :
  JsObject.get k (JsObject.set k v o) = Some v.
Proof.
  induction o as [|[k' v'] o IH]; simpl.
  - rewrite String.eqb_refl. reflexivity.
  - destruct (String.eqb k k') eqn:E; simpl; rewrite E; [reflexivity | exact IH].
Qed.

Lemma get_set_other {V} (k k' : string) (v : V) (o : JsObject.t V) :
  k <> k' -> JsObject.get k' (JsObject.set k v o) = JsObject.get k' o.
Proof.
  intros Hne. induction o as [|[k0 v0] o IH]; simpl.
  - destruct (String.eqb_spec k' k); [congruence | reflexivity].
  - destruct (String.eqb_spec k k0) as [->|Hk]; simpl.
    + destruct (String.eqb_spec k' k0); [congruence | reflexivity].
    + destruct (String.eqb k' k0); [reflexivity | exact IH].
Qed.

Lemma has_In {V} (k : string) (o : JsObject.t V) :
  JsObject.has k o = true -> In k (map fst o).
Proof.
  unfold JsObject.has. induction o as [|[k' v'] o IH]; simpl; [discriminate|].
  destruct (String.eqb_spec k k') as [->|_]; [left; reflexivity|].
  intros H. right. exact (IH H).
Qed.

Lemma insert_sorted_In (x y : Z * string) (l : list (Z * string)) :
  In y (JsObject.insert_sorted x l) <-> y = x \/ In y l.
Proof.
  induction l as [|z l IH]; simpl.
  - split; [intros [H|[]]; left; congruence | intros [H|[]]; left; congruence].
  - destruct (fst x <? fst z); simpl.
    + split; [intros [H|H]; [left; congruence | right; exact H]
             | intros [H|H]; [left; congruence | right; exact H]].
    + rewrite IH. split; [intros [H|[H|H]] | intros [H|[H|H]]]; auto.
Qed.

Lemma sort_indices_In (y : Z * string) (l : list (Z * string)) :
  In y (JsObject.sort_indices l) <-> In y l.
Proof.
  unfold JsObject.sort_indices. induction l as [|x l IH]; simpl; [reflexivity|].
  rewrite insert_sorted_In, IH. split; intros [H|H]; auto.
Qed.

Lemma index_keys_In (k : string) (ks : list string) :
  In k (map snd (JsObject.index_keys ks)) <-> (In k ks /\ JsObject.is_index k = true).
Proof.
  unfold JsObject.is_index. induction ks as [|k' ks IH]; simpl.
  - split; [intros [] | intros [[] _]].
  - destruct (JsObject.array_index k') as [n|] eqn:E; simpl; rewrite IH.
    + split.
      * intros [<-|[H1 H2]]; [rewrite E; auto | auto].
      * intros [[<-|H1] H2]; auto.
    + split.
      * intros [H1 H2]. auto.
      * intros [[<-|H1] H2]; [rewrite E in H2; discriminate | auto].
Qed.

(** [Object.keys] lists every key, whatever their order *)
Lemma enumerate_In (k : string) (ks : list string) :
  In k (JsObject.enumerate ks) <-> In k ks.
Proof.
  unfold JsObject.enumerate. rewrite in_app_iff, filter_In.
  assert (Hidx : In k (map snd (JsObject.sort_indices (JsObject.index_keys ks)))
                 <-> In k (map snd (JsObject.index_keys ks))).
  { rewrite !in_map_iff. split; intros [y [Hy Hin]]; exists y; split; auto;
      apply sort_indices_In; exact Hin. }
  rewrite Hidx, index_keys_In.
  destruct (JsObject.is_index k); simpl; split; intros H; tauto.
Qed.

Lemma neighbours_ensure (k x : string) (g : CallGraph) :
  neighbours (ensure k g) x = neighbours g x.
Proof.
  unfold ensure, JsObject.has, neighbours.
  destruct (JsObject.get k g) eqn:E; [reflexivity|].
  destruct (String.eqb_spec k x) as [<-|Hne].
  - rewrite get_set_same, E. reflexivity.
  - rewrite get_set_other by exact Hne. reflexivity.
Qed.

Lemma has_set {V} (k x : string) (v : V) (o : JsObject.t V) :
  JsObject.has x o = true -> JsObject.has x (JsObject.set k v o) = true.
Proof.
  unfold JsObject.has. intros H.
  destruct (String.eqb_spec k x) as [<-|Hne].
  - rewrite get_set_same. reflexivity.
  - rewrite get_set_other by exact Hne. exact H.
Qed.

Lemma has_ensure_same (k : string) (g : CallGraph) :
  JsObject.has k (ensure k g) = true.
Proof.
  unfold ensure. destruct (JsObject.has k g) eqn:E; [exact E|].
  unfold JsObject.has. rewrite get_set_same. reflexivity.
Qed.

Lemma has_ensure (k x : string) (g : CallGraph) :
  JsObject.has x g = true -> JsObject.has x (ensure k g) = true.
Proof.
  unfold ensure. destruct (JsObject.has k g); [auto | apply has_set].
Qed.

Lemma neighbours_push (k x : string) (e e' : Edge) (g : CallGraph) :
  In e' (neighbours g x) -> In e' (neighbours (push_edge k e g) x).
Proof.
  unfold push_edge, neighbours.
  destruct (JsObject.get k g) as [es|] eqn:E; [|auto].
  destruct (String.eqb_spec k x) as [<-|Hne].
  - rewrite get_set_same, E. intros H. apply in_or_app. left. exact H.
  - rewrite get_set_other by exact Hne. auto.
Qed.

Lemma neighbours_push_new (k : string) (e : Edge) (g : CallGraph) :
  JsObject.has k g = true -> In e (neighbours (push_edge k e g) k).
Proof.
  unfold push_edge, neighbours, JsObject.has.
  destruct (JsObject.get k g) as [es|]; [|discriminate].
  intros _. rewrite get_set_same. apply in_or_app. right. left. reflexivity.
Qed.

Lemma has_push (k x : string) (e : Edge) (g : CallGraph) :
  JsObject.has x g = true -> JsObject.has x (push_edge k e g) = true.
Proof.
  unfold push_edge. destruct (JsObject.get k g); [apply has_set | auto].
Qed.

Lemma forward_pass_keeps (g : CallGraph) (ic : nat * CallRecord) (x : string) :
  (forall e, In e (neighbours g x) -> In e (neighbours (forward_pass g ic) x))
  /\ (JsObject.has x g = true -> JsObject.has x (forward_pass g ic) = true).
Proof.
  destruct ic as [i c]. unfold forward_pass.
  destruct (skipped c); [auto|]. split.
  - intros e H. apply neighbours_push. rewrite neighbours_ensure. exact H.
  - intros H. apply has_push, has_ensure, H.
Qed.

Lemma forward_pass_adds (g : CallGraph) (i : nat) (c : CallRecord) :
  skipped c = false ->
  In (edge_of i (call_to c) c) (neighbours (forward_pass g (i, c)) (call_from c))
  /\ JsObject.has (call_from c) (forward_pass g (i, c)) = true.
Proof.
  intros Hs. unfold forward_pass. rewrite Hs. split.
  - apply neighbours_push_new, has_ensure_same.
  - apply has_push, has_ensure_same.
Qed.

Lemma fold_forward_keeps (l : list (nat * CallRecord)) (g : CallGraph) (x : string) :
  (forall e, In e (neighbours g x) -> In e (neighbours (fold_left forward_pass l g) x))
  /\ (JsObject.has x g = true -> JsObject.has x (fold_left forward_pass l g) = true).
Proof.
  revert g. induction l as [|ic l IH]; intros g; simpl; [auto|].
  destruct (IH (forward_pass g ic)) as [H1 H2].
  destruct (forward_pass_keeps g ic x) as [K1 K2]. split; auto.
Qed.

Lemma fold_forward_adds (l : list (nat * CallRecord)) (g : CallGraph)
      (i : nat) (c : CallRecord) :
  In (i, c) l -> skipped c = false ->
  In (edge_of i (call_to c) c) (neighbours (fold_left forward_pass l g) (call_from c))
  /\ JsObject.has (call_from c) (fold_left forward_pass l g) = true.
Proof.
  revert g. induction l as [|ic l IH]; intros g Hin Hs; [destruct Hin|].
  simpl. destruct Hin as [->|Hin]; [|apply IH; assumption].
  destruct (forward_pass_adds g i c Hs) as [A1 A2].
  destruct (fold_forward_keeps l (forward_pass g (i, c)) (call_from c)) as [K1 K2].
  split; auto.
Qed.

Lemma numeric_ok (v : option string) :
  numeric v = true -> exists b, positive_value v = Ok b.
Proof.
  unfold numeric. destruct (positive_value v) as [b|]; [eauto | discriminate].
Qed.

Lemma reverse_pass_keeps (g g' : CallGraph) (ic : nat * CallRecord) (x : string) :
  reverse_pass g ic = Ok g' ->
  (forall e, In e (neighbours g x) -> In e (neighbours g' x))
  /\ (JsObject.has x g = true -> JsObject.has x g' = true).
Proof.
  destruct ic as [i c]. unfold reverse_pass.
  destruct (skipped c); [intros [= <-]; auto|].
  destruct (positive_value (call_value c)) as [b|]; [|discriminate]. simpl.
  destruct (b || _)%bool; intros [= <-]; split; intros; auto using has_ensure, has_push;
    try apply neighbours_push; rewrite neighbours_ensure; auto.
Qed.

Lemma fold_reverse_keeps (l : list (nat * CallRecord)) (g g' : CallGraph) (x : string) :
  foldM reverse_pass l g = Ok g' ->
  (forall e, In e (neighbours g x) -> In e (neighbours g' x))
  /\ (JsObject.has x g = true -> JsObject.has x g' = true).
Proof.
  revert g. induction l as [|ic l IH]; intros g; simpl.
  - intros [= <-]. auto.
  - destruct (reverse_pass g ic) as [g1|] eqn:E; [|discriminate]. simpl.
    intros H. destruct (IH g1 H) as [H1 H2].
    destruct (reverse_pass_keeps g g1 ic x E) as [K1 K2]. split; auto.
Qed.

Lemma fold_reverse_ok (l : list (nat * CallRecord)) :
  Forall (fun ic => numeric (call_value (snd ic)) = true) l ->
  forall g, exists g', foldM reverse_pass l g = Ok g'.
Proof.
  induction 1 as [|[i c] l Hc _ IH]; intros g; simpl; [eauto|].
  destruct (numeric_ok _ Hc) as [b Hb]. simpl in Hb.
  unfold reverse_pass at 1.
  destruct (skipped c); simpl; [apply IH|].
  rewrite Hb. simpl. destruct (b || _)%bool; simpl; apply IH.
Qed.

Lemma indexed_from_In {A} (c : A) (l : list A) (s : nat) :
  In c l -> exists i, In (i, c) (combine (seq s (length l)) l).
Proof.
  revert s. induction l as [|x l IH]; intros s Hin; [destruct Hin|].
  simpl. destruct Hin as [->|Hin].
  - exists s. left. reflexivity.
  - destruct (IH (S s) Hin) as [i Hi]. exists i. right. exact Hi.
Qed.

Lemma indexed_snd {A} (l : list A) (ic : nat * A) :
  In ic (indexed l) -> In (snd ic) l.
Proof.
  destruct ic as [i c]. unfold indexed. intros H. exact (in_combine_r _ _ _ _ H).
Qed.

(** the graph of well-formed calls is built, and every call between two
    addresses puts its sender among the keys and its edge into the graph *)
Lemma buildCallGraph_edges (cs : list CallRecord) :
  Forall (fun c => numeric (call_value c) = true) cs ->
  exists g,
    buildCallGraph cs = Ok g
    /\ forall c, In c cs -> skipped c = false ->
                 In (call_from c) (JsObject.keys g)
                 /\ has_edge g (call_from c) (call_to c).
Proof.
  intros Hnum. unfold buildCallGraph.
  destruct (fold_reverse_ok (indexed cs)) with (g := fold_left forward_pass (indexed cs) [])
    as [g Hg].
  { apply Forall_forall. intros ic Hic.
    exact (proj1 (Forall_forall _ _) Hnum _ (indexed_snd _ _ Hic)). }
  exists g. split; [exact Hg|]. intros c Hin Hs.
  destruct (indexed_from_In c cs 0 Hin) as [i Hi].
  destruct (fold_forward_adds (indexed cs) [] i c Hi Hs) as [He Hk].
  destruct (fold_reverse_keeps _ _ _ (call_from c) Hg) as [K1 K2]. split.
  - unfold JsObject.keys. apply enumerate_In, has_In, K2, Hk.
  - exists (edge_of i (call_to c) c). split; [apply K1, He | reflexivity].
Qed.

(** ** Reentrancy *)

Lemma someM_ok {A} (p : A -> result bool) (l : list A) :
  (forall a, In a l -> exists b, p a = Ok b) -> exists b, someM p l = Ok b.
Proof.
  induction l as [|a l IH]; intros H; simpl; [eauto|].
  destruct (H a (or_introl eq_refl)) as [b ->]. simpl.
  destruct b; [eauto|]. apply IH. intros a' Ha'. apply H. right. exact Ha'.
Qed.

Lemma filterM_ok {A} (p : A -> result bool) (l : list A) :
  (forall a, In a l -> exists b, p a = Ok b) -> exists r, filterM p l = Ok r.
Proof.
  induction l as [|a l IH]; intros H; simpl; [eauto|].
  destruct (H a (or_introl eq_refl)) as [b ->]. simpl.
  destruct IH as [r ->]; [intros a' Ha'; apply H; right; exact Ha'|].
  simpl. eauto.
Qed.

Lemma foldM_ok {A S} (f : S -> A -> result S) (l : list A) :
  (forall s a, In a l -> exists s', f s a = Ok s') ->
  forall s, exists s', foldM f l s = Ok s'.
Proof.
  induction l as [|a l IH]; intros H s; simpl; [eauto|].
  destruct (H s a (or_introl eq_refl)) as [s1 ->]. simpl.
  apply IH. intros s' a' Ha'. apply H. right. exact Ha'.
Qed.

Lemma analyzeReentrancyPatterns_ok (cs : list CallRecord) (found : list (list string)) :
  Forall (fun c => numeric (call_value c) = true) cs ->
  exists patterns, analyzeReentrancyPatterns cs found = Ok patterns.
Proof.
  intros Hnum. rewrite Forall_forall in Hnum. unfold analyzeReentrancyPatterns.
  match goal with
  | |- context [Exn.bind (someM ?p found) _] =>
      destruct (someM_ok p found) as [b1 ->]
  end.
  { intros path _. apply someM_ok. intros [prevCall call] Hin.
    destruct (opt_includes (call_input call) "0x"); [|eauto].
    apply numeric_ok, Hnum.
    apply in_combine_l in Hin. apply in_flat_map in Hin.
    destruct Hin as [addr [_ Hin]].
    destruct (find (touches addr) cs) as [c|] eqn:E; [|destruct Hin].
    destruct Hin as [<-|[]]. exact (proj1 (find_some _ _ E)). }
  cbn [Exn.bind].
  match goal with
  | |- context [Exn.bind (someM ?p found) _] =>
      destruct (someM_ok p found) as [b2 ->]
  end.
  { intros path _.
    match goal with
    | |- context [foldM ?f path O] => destruct (foldM_ok f path) with (s := O) as [n ->]
    end.
    - intros count addr _.
      match goal with
      | |- context [filterM ?p cs] => destruct (filterM_ok p cs) as [r ->]
      end.
      + intros c Hc. destruct (touches addr c); [|eauto]. apply numeric_ok, Hnum, Hc.
      + simpl. eauto.
    - simpl. eauto. }
  cbn [Exn.bind]. eauto.
Qed.






(** ** The legitimacy override *)

Lemma last_app_one {A} (l : list A) (x d : A) : last (l ++ [x]) d = x.
Proof.
  induction l as [|y l IH]; [reflexivity|].
  simpl. destruct (l ++ [x]) eqn:E; [destruct l; discriminate | exact IH].
Qed.





(** ** Evaluation completes on well-formed transactions *)

Lemma numeric_some (v : string) :
  numeric (Some v) = true -> truthy v = true -> exists z, BigNumber.from v = Ok z.
Proof.
  unfold numeric, positive_value. intros H Ht. rewrite Ht in H.
  destruct (BigNumber.from v) as [z|]; [eauto | discriminate].
Qed.

Lemma numeric_from (v : option string) :
  numeric v = true -> exists z, BigNumber.from (or_default v "0") = Ok z.
Proof.
  intros H. destruct v as [s|]; [|exists 0; reflexivity].
  unfold or_default. destruct (truthy s) eqn:Ht; [|exists 0; reflexivity].
  exact (numeric_some s H Ht).
Qed.

Lemma numeric_truthy_from (v : option string) :
  numeric v = true -> opt_truthy v = true ->
  exists z, BigNumber.from (or_default v "") = Ok z.
Proof.
  intros H Ht. destruct v as [s|]; [|discriminate]. simpl in Ht.
  unfold or_default. rewrite Ht. exact (numeric_some s H Ht).
Qed.

Lemma returns_ok {A} (m : result A) : Exn.returns m = true -> exists a, m = Ok a.
Proof. destruct m; [eauto | discriminate]. Qed.

Lemma anyM_ok {A} (p : A -> result bool) (l : list A) :
  (forall a, In a l -> exists b, p a = Ok b) -> exists b, anyM p l = Ok b.
Proof.
  intros H. unfold anyM. apply foldM_ok.
  intros s a Ha. destruct (H a Ha) as [b ->]. simpl. eauto.
Qed.

Lemma large_transfer_ok (c : CallRecord) :
  numeric (call_value c) = true -> exists b, large_transfer c = Ok b.
Proof.
  intros H. unfold large_transfer.
  destruct (opt_startsWith (call_input c) "0xa9059cbb"); [|eauto].
  destruct (numeric_from _ H) as [z ->]. simpl. eauto.
Qed.

Ltac settle_ifs :=
  repeat match goal with
         | |- context [if ?c then _ else _] => destruct c
         end;
  eauto.

Section Completes.

Variable this : DetectionService.
Variable transaction : Transaction.

Hypothesis calls_numeric :
  forall c, In c (calls_or_empty (trace transaction)) -> numeric (call_value c) = true.

Lemma isLegitimateOperation_ok (additionalData : option AuxiliaryContext) :
  exists b, isLegitimateOperation this transaction additionalData = Ok b.
Proof.
  unfold isLegitimateOperation.
  destruct (_ || _ || _ || _)%bool; [eauto|].
  destruct (opt_startsWith (input (trace transaction)) "0xc3018a0e").
  - match goal with
    | |- context [if (?c && ?d)%bool then Ok true else _] => destruct (c && d)%bool
    end.
    + cbn [Exn.bind]. eauto.
    + assert (H1 : numeric (opt_value (hd_error (calls_or_empty (trace transaction))))
                   = true).
      { destruct (calls_or_empty (trace transaction)) as [|c cs]; [reflexivity|].
        apply calls_numeric. left. reflexivity. }
      assert (H2 : numeric (opt_value (last_call (calls_or_empty (trace transaction))))
                   = true).
      { destruct (calls_or_empty (trace transaction)) as [|c cs] eqn:E; [reflexivity|].
        apply calls_numeric. unfold last_call.
        destruct (exists_last (l := c :: cs)) as [l' [x ->]]; [discriminate|].
        rewrite last_app_one. apply in_or_app. right. left. reflexivity. }
      destruct (numeric_from _ H1) as [z1 ->].
      destruct (numeric_from _ H2) as [z2 ->].
      cbn [Exn.bind]. settle_ifs.
  - cbn [Exn.bind]. settle_ifs.
Qed.

Lemma calls_Forall (cs : list CallRecord) :
  calls (trace transaction) = Some cs ->
  Forall (fun c => numeric (call_value c) = true) cs.
Proof.
  intros E. apply Forall_forall. intros c Hc. apply calls_numeric.
  unfold calls_or_empty. rewrite E. exact Hc.
Qed.

Lemma detectReentrancy_ok : exists r, detectReentrancy this transaction = Ok r.
Proof.
  unfold detectReentrancy.
  destruct (isLegitimateOperation_ok (additionalData transaction)) as [b ->].
  cbn [Exn.bind]. destruct b; [eauto|].
  destruct (_ || _)%bool; [eauto|].
  destruct (calls (trace transaction)) as [[|c cs]|] eqn:E; eauto.
  destruct (buildCallGraph_edges (c :: cs) (calls_Forall _ E)) as [g [-> _]].
  cbn [Exn.bind].
  destruct (findReentrancyPaths_spec this g) as [found [-> _]].
  destruct found as [|p found]; [eauto|].
  destruct (analyzeReentrancyPatterns_ok (c :: cs) (p :: found) (calls_Forall _ E))
    as [patterns ->].
  cbn [Exn.bind]. eauto.
Qed.

Lemma detectFrontRunning_ok : exists r, detectFrontRunning this transaction = Ok r.
Proof.
  unfold detectFrontRunning.
  destruct (isLegitimateOperation_ok (additionalData transaction)) as [b ->].
  cbn [Exn.bind]. destruct b; [eauto|].
  destruct (gas (trace transaction)) as [g|]; [|eauto].
  destruct (negb (truthy g)); [eauto|].
  destruct (input (trace transaction)); settle_ifs.
Qed.

Lemma detectAbnormalValue_ok :
  numeric (value (trace transaction)) = true ->
  exists r, detectAbnormalValue this transaction = Ok r.
Proof.
  intros H. unfold detectAbnormalValue.
  destruct (value (trace transaction)) as [v|]; [|eauto].
  destruct (truthy v) eqn:Ht; cbn [negb]; [|eauto].
  destruct (numeric_some v H Ht) as [z ->]. cbn [Exn.bind]. settle_ifs.
Qed.

Lemma flash_step_ok (first : CallRecord) (st : bool * bool) (ic : nat * CallRecord) :
  numeric (call_value (snd ic)) = true ->
  exists st', flash_step this first st ic = Ok st'.
Proof.
  destruct st as [l r], ic as [i c]. cbn [snd]. intros H. unfold flash_step.
  destruct (opt_truthy (call_value c)) eqn:Ht.
  - destruct (numeric_truthy_from _ H Ht) as [z ->]. cbn [Exn.bind].
    destruct (numeric_ok _ H) as [b Hb].
    match goal with
    | |- context [if ?c then positive_value _ else _] => destruct c
    end; [rewrite Hb|]; cbn [Exn.bind]; eauto.
  - cbn [Exn.bind]. destruct (numeric_ok _ H) as [b Hb].
    match goal with
    | |- context [if ?c then positive_value _ else _] => destruct c
    end; [rewrite Hb|]; cbn [Exn.bind]; eauto.
Qed.

Lemma detectFlashLoanAttack_ok : exists r, detectFlashLoanAttack this transaction = Ok r.
Proof.
  unfold detectFlashLoanAttack.
  destruct (calls (trace transaction)) as [[|c cs]|] eqn:E; eauto.
  destruct (foldM_ok (flash_step this c) (indexed (c :: cs))) with (s := (false, false))
    as [[l r] ->].
  - intros st ic Hic. apply flash_step_ok.
    apply (proj1 (Forall_forall _ _) (calls_Forall _ E)), indexed_snd, Hic.
  - cbn [Exn.bind]. settle_ifs.
Qed.

Lemma detectGovernanceAttack_ok :
  (forall c, In c (third_level (calls_or_empty (trace transaction))) ->
             numeric (call_value c) = true) ->
  exists r, detectGovernanceAttack this transaction = Ok r.
Proof.
  intros Hdeep. unfold detectGovernanceAttack.
  destruct (anyM_ok large_transfer (calls_or_empty (trace transaction))) as [b1 ->].
  { intros c Hc. apply large_transfer_ok, calls_numeric, Hc. }
  cbn [Exn.bind].
  match goal with
  | |- context [Exn.bind (if ?c then ?m else Ok false) _] =>
      assert (Hm : exists b, m = Ok b)
  end.
  { apply anyM_ok. intros call Hcall. apply anyM_ok. intros n Hn.
    apply anyM_ok. intros d Hd. apply large_transfer_ok, Hdeep.
    unfold third_level. apply in_flat_map. exists call. split; [exact Hcall|].
    apply in_flat_map. exists n. auto. }
  destruct Hm as [b2 ->].
  destruct (existsb _ (calls_or_empty (trace transaction))); cbn [Exn.bind];
    match goal with
    | |- context [match ?l with [] => _ | _ :: _ => _ end] => destruct l
    end; eauto.
Qed.

Lemma slot_jump_ok (preStorage postStorage : JsObject.t string) (slot : string) :
  In slot (JsObject.keys preStorage) ->
  slots_ok preStorage postStorage = true ->
  exists b, slot_jump preStorage postStorage slot = Ok b.
Proof.
  intros Hin H. unfold slots_ok in H. rewrite forallb_forall in H.
  specialize (H slot Hin). unfold slot_jump.
  destruct (JsObject.get slot postStorage) as [pv|]; [|eauto].
  destruct (truthy pv); [|eauto].
  apply andb_true_iff in H. destruct H as [H1 H2].
  destruct (returns_ok _ H1) as [z1 ->]. destruct (returns_ok _ H2) as [z2 ->].
  cbn [Exn.bind]. eauto.
Qed.

Lemma price_change_ok (preState postState : WorldState) :
  states_ok preState postState = true ->
  exists b, price_change preState postState = Ok b.
Proof.
  intros H. unfold states_ok in H. rewrite forallb_forall in H.
  unfold price_change. apply anyM_ok. intros address Hin.
  specialize (H address Hin).
  destruct (JsObject.get address preState) as [preAcct|]; [|eauto].
  destruct (storage_of preAcct) as [preStorage|]; [|eauto].
  destruct (JsObject.get address postState) as [postAcct|]; [|discriminate].
  destruct (storage_of postAcct) as [postStorage|]; [|eauto].
  apply anyM_ok. intros slot Hslot. apply slot_jump_ok; assumption.
Qed.

Lemma detectOracleManipulation_ok :
  match pre (trace transaction), post (trace transaction) with
  | Some preState, Some postState => states_ok preState postState
  | _, _ => true
  end = true ->
  exists r, detectOracleManipulation this transaction = Ok r.
Proof.
  intros H. unfold detectOracleManipulation.
  match goal with
  | |- context [Exn.bind ?m _] => assert (Hm : exists b, m = Ok b)
  end.
  { destruct (pre (trace transaction)) as [preState|]; [|eauto].
    destruct (post (trace transaction)) as [postState|]; [|eauto].
    apply price_change_ok, H. }
  destruct Hm as [b ->]. cbn [Exn.bind].
  match goal with
  | |- context [match ?l with [] => _ | _ :: _ => _ end] => destruct l
  end; eauto.
Qed.

Lemma pair_ok_from (a b : option string) :
  pair_ok a b = true ->
  (opt_truthy a && opt_truthy b)%bool = true ->
  exists x y, BigNumber.from (or_default a "") = Ok x
              /\ BigNumber.from (or_default b "") = Ok y.
Proof.
  unfold pair_ok. intros H Ht. rewrite Ht in H.
  apply andb_true_iff in H. destruct H as [H1 H2].
  destruct (returns_ok _ H1) as [x Hx]. destruct (returns_ok _ H2) as [y Hy].
  eauto.
Qed.

Lemma detectCrossChainAttack_ok :
  aux_ok (additionalData transaction) = true ->
  exists r, detectCrossChainAttack this transaction = Ok r.
Proof.
  intros Haux. unfold detectCrossChainAttack.
  destruct (isLegitimateOperation_ok (additionalData transaction)) as [b ->].
  cbn [Exn.bind]. destruct b; [eauto|].
  destruct (tagged_false_positive (additionalData transaction)); [eauto|].
  match goal with
  | |- context [Exn.bind (anyM ?p ?l) _] => destruct (anyM_ok p l) as [b1 ->]
  end.
  { intros c Hc. destruct (String.eqb _ _); [|eauto].
    apply large_transfer_ok, calls_numeric, Hc. }
  cbn [Exn.bind].
  set (a := match additionalData transaction with Some a => a | None => noAux end).
  assert (Ha : pair_ok (sourcePrice a) (destinationPrice a) = true
               /\ pair_ok (sourceTotalLocked a) (destinationTotalMinted a) = true).
  { unfold a. unfold aux_ok in Haux.
    destruct (additionalData transaction); [|split; reflexivity].
    apply andb_true_iff in Haux. exact Haux. }
  destruct Ha as [Hp Hl].
  match goal with
  | |- context [Exn.bind (if ?c then ?m else Ok false) _] =>
      assert (Hm : exists b, (if c then m else Ok false) = Ok b)
  end.
  { destruct (opt_truthy (sourcePrice a) && opt_truthy (destinationPrice a))%bool eqn:Ht;
      [|eauto].
    destruct (pair_ok_from _ _ Hp Ht) as [x [y [-> ->]]]. cbn [Exn.bind]. eauto. }
  destruct Hm as [b2 ->]. cbn [Exn.bind].
  match goal with
  | |- context [Exn.bind (if ?c then ?m else Ok false) _] =>
      assert (Hm : exists b, (if c then m else Ok false) = Ok b)
  end.
  { destruct (opt_truthy (sourceTotalLocked a)
              && opt_truthy (destinationTotalMinted a))%bool eqn:Ht; [|eauto].
    destruct (pair_ok_from _ _ Hl Ht) as [x [y [-> ->]]]. cbn [Exn.bind]. eauto. }
  destruct Hm as [b3 ->]. cbn [Exn.bind].
  match goal with
  | |- context [match ?l with [] => _ | _ :: _ => _ end] => destruct l
  end; eauto.
Qed.

End Completes.

(** on a well-formed transaction every evaluator returns and so does the
    aggregator *)
Lemma detectThreats_total (this : DetectionService) (transaction : Transaction) :
  well_formed (trace transaction) (additionalData transaction) = true ->
  exists report, detectThreats this transaction = Ok report.
Proof.
  unfold well_formed. rewrite !andb_true_iff, !forallb_forall.
  intros [[[[Hv Hc] Hd] Hs] Ha].
  unfold detectThreats, run_detectors.
  destruct (detectReentrancy_ok this transaction Hc) as [r1 ->]. cbn [Exn.bind].
  destruct (detectFrontRunning_ok this transaction Hc) as [r2 ->]. cbn [Exn.bind].
  destruct (detectAbnormalValue_ok this transaction Hv) as [r3 ->]. cbn [Exn.bind].
  destruct (detectFlashLoanAttack_ok this transaction Hc) as [r4 ->]. cbn [Exn.bind].
  destruct (detectGovernanceAttack_ok this transaction Hc Hd) as [r5 ->]. cbn [Exn.bind].
  destruct (detectOracleManipulation_ok this transaction Hs) as [r6 ->]. cbn [Exn.bind].
  destruct (detectCrossChainAttack_ok this transaction Hc Ha) as [r7 ->]. cbn [Exn.bind].
  destruct (fold_left collect _ _) as [[td msgs] dd]. eauto.
Qed.

(** ** The static entry point *)

(** Whatever the evaluators found, the report of a request of the
    false-positive suite carries nothing, provided the evaluators ran to
    completion; well-formedness of the request is enough for that. *)
Lemma detect_false_positive_when_complete :
  forall request : DetectionRequest,
    req_detectorName request = Some "false-positive-detector" ->
    well_formed (req_trace request) (req_additionalData request) = true ->
    exists report, detect request = Ok report /\ reports_nothing report.
Proof.
  intros request Hname Hwf. unfold detect.
  match goal with
  | |- context [detectThreats ?s ?tx] =>
      destruct (detectThreats_total s tx Hwf) as [r0 ->]
  end.
  cbn [Exn.bind]. rewrite Hname.
  change (opt_eqb (Some "false-positive-detector") (Some "false-positive-detector"))
    with true.
  cbv iota. eexists. split; [reflexivity|].
  unfold reports_nothing, no_threats. cbn [resp_detected resp_message detectionDetails].
  auto.
Qed.

Example detect_false_positive_hostile :
  (exists report,
      detectThreats new_DetectionService
        {| id := "fp-1"; chainId := "1"; protocolAddress := ""; protocolName := "";
           trace := req_trace hostile_false_positive_request;
           additionalData := None |} = Ok report
      /\ resp_detected report = true)
  /\ exists report,
      detect hostile_false_positive_request = Ok report /\ reports_nothing report.
Proof.
  split.
  - eexists. split; [vm_compute; reflexivity | reflexivity].
  - apply (detect_false_positive_when_complete hostile_false_positive_request);
      reflexivity.
Qed.

(** C10, at a failing input.  The override for the detector name
    'false-positive-detector' is applied to the report that [detectThreats]
    returns; on a request whose [pre] snapshot holds an account with storage
    that [post] no longer lists, the oracle evaluator raises first and
    [detect] returns no report at all. *)
Theorem false_positive_detector_raises :
  req_detectorName dropped_account_request = Some "false-positive-detector"
  /\ detect dropped_account_request = Throw (TypeError "post[address].storage").
Proof.
  split; [reflexivity | vm_compute; reflexivity].
Qed.

(** ** Determinism *)



(** ** Spoofing: the blacklist and the similarity score *)



Lemma count_matches_le (a1 a2 : string) :
  (count_matches a1 a2 <= String.length a1)%nat.
Proof.
  revert a2. induction a1 as [|c1 r1 IH]; intros a2; simpl; [lia|].
  destruct a2 as [|c2 r2]; [lia|].
  specialize (IH r2). destruct (Ascii.eqb c1 c2); simpl; lia.
Qed.

Lemma count_matches_self (s : string) : count_matches s s = String.length s.
Proof.
  induction s as [|c s IH]; simpl; [reflexivity|].
  rewrite Ascii.eqb_refl, IH. reflexivity.
Qed.

(** The similarity score, when it is a number, lies between 0 and 1: the
    matches are counted over the positions of the first address only. *)
Theorem similarity_between_0_and_1 :
  forall (address1 address2 : string) (q : Q),
    calculateAddressSimilarity address1 address2 = Some q ->
    (0 <= q)%Q /\ (q <= 1)%Q.
Proof.
  intros a1 a2 q. unfold calculateAddressSimilarity.
  pose proof (count_matches_le (normalize a1) (normalize a2)) as Hle.
  destruct (String.length (normalize a1)) as [|n]; [discriminate|].
  intros [= <-]. unfold Qle. cbn [Qnum Qden].
  split; [lia|].
  assert (Hp : Z.pos (Pos.of_succ_nat n) = Z.of_nat (S n)).
  { rewrite Zpos_P_of_succ_nat. lia. }
  rewrite Hp. lia.
Qed.

Lemma similarity_between_0_and_1_witness :
  (0 <= 39 # 40)%Q /\ (39 # 40 <= 1)%Q.
Proof.
  apply (similarity_between_0_and_1 legitimate_addr similar_addr (39 # 40)).
  reflexivity.
Defined.

(** Two spellings of one address, differing at most in letter case, are
    never reported as a lookalike pair: their score is 1 (or NaN for an
    address without characters), not below 1. *)
Theorem same_address_is_not_spoofing :
  forall address1 address2 : string,
    toLowerCase address1 = toLowerCase address2 ->
    isAddressSpoofing address1 address2 = false.
Proof.
  intros a1 a2 H. unfold isAddressSpoofing.
  destruct (negb (truthy a1) || negb (truthy a2))%bool; [reflexivity|].
  unfold calculateAddressSimilarity, normalize. rewrite <- H.
  rewrite count_matches_self.
  destruct (String.length (remove_first "0x" (toLowerCase a1))) as [|n] eqn:E;
    [reflexivity|].
  apply andb_false_iff. right.
  destruct (Qlt_b (Z.of_nat (S n) # Pos.of_succ_nat n) 1) eqn:Hlt; [|reflexivity].
  apply Qlt_b_iff in Hlt. exfalso. revert Hlt. unfold Qlt. cbn [Qnum Qden].
  rewrite Zpos_P_of_succ_nat. lia.
Qed.

Lemma same_address_is_not_spoofing_witness :
  isAddressSpoofing "0xABCDEF0123" "0xabcdef0123" = false.
Proof.
  apply (same_address_is_not_spoofing "0xABCDEF0123" "0xabcdef0123"). reflexivity.
Defined.

(** ** The call graph, edge by edge *)

Lemma neighbours_push_iff (k x : string) (e e' : Edge) (g : CallGraph) :
  JsObject.has k g = true ->
  (In e' (neighbours (push_edge k e g) x)
   <-> In e' (neighbours g x) \/ (x = k /\ e' = e)).
Proof.
  unfold push_edge, neighbours, JsObject.has.
  destruct (JsObject.get k g) as [es|] eqn:E; [|discriminate]. intros _.
  destruct (String.eqb_spec k x) as [<-|Hne].
  - rewrite get_set_same, E, in_app_iff. simpl. split.
    + intros [H|[H|[]]]; [left; exact H | right; auto].
    + intros [H|[_ H]]; [left; exact H | right; left; auto].
  - rewrite get_set_other by exact Hne. split; [auto|].
    intros [H|[H _]]; [exact H | congruence].
Qed.

Lemma forward_pass_edges (g : CallGraph) (i : nat) (c : CallRecord) (x : string) (e : Edge) :
  In e (neighbours (forward_pass g (i, c)) x)
  <-> In e (neighbours g x)
      \/ (skipped c = false /\ x = call_from c /\ e = edge_of i (call_to c) c).
Proof.
  unfold forward_pass. destruct (skipped c).
  - split; [auto | intros [H|[H _]]; [exact H | discriminate]].
  - rewrite neighbours_push_iff by apply has_ensure_same.
    rewrite neighbours_ensure. split; intros [H|H]; auto; right; tauto.
Qed.

Lemma fold_forward_edges (l : list (nat * CallRecord)) (g : CallGraph) (x : string) (e : Edge) :
  In e (neighbours (fold_left forward_pass l g) x)
  <-> In e (neighbours g x)
      \/ exists i c, In (i, c) l /\ skipped c = false
                     /\ x = call_from c /\ e = edge_of i (call_to c) c.
Proof.
  revert g. induction l as [|[i c] l IH]; intros g; cbn [fold_left].
  - split; [auto | intros [H|[i [c [[] _]]]]; exact H].
  - rewrite IH, forward_pass_edges. split.
    + intros [[H|H]|[j [d [Hin H]]]]; [left; exact H | right | right].
      * exists i, c. split; [left; reflexivity | exact H].
      * exists j, d. split; [right; exact Hin | exact H].
    + intros [H|[j [d [[Heq|Hin] H]]]]; [left; left; exact H | |].
      * injection Heq as <- <-. left. right. exact H.
      * right. exists j, d. auto.
Qed.

Lemma reverse_pass_edges (g g' : CallGraph) (i : nat) (c : CallRecord)
      (x : string) (e : Edge) :
  reverse_pass g (i, c) = Ok g' ->
  (In e (neighbours g' x)
   <-> In e (neighbours g x)
       \/ (skipped c = false /\ x = call_to c /\ e = edge_of i (call_from c) c
           /\ calls_back c)).
Proof.
  unfold reverse_pass, calls_back. destruct (skipped c).
  - intros [= <-]. split; [auto | intros [H|[H _]]; [exact H | discriminate]].
  - destruct (positive_value (call_value c)) as [carries|]; [|discriminate].
    cbn [Exn.bind].
    destruct (carries || _)%bool eqn:Hcond; intros [= <-].
    + rewrite neighbours_push_iff by apply has_ensure_same.
      rewrite neighbours_ensure. split; intros [H|H]; auto; right.
      * destruct H as [-> ->]. repeat split.
        apply orb_true_iff in Hcond. destruct Hcond as [->|H]; auto.
      * tauto.
    + rewrite neighbours_ensure. split; [auto|].
      intros [H|[_ [_ [_ [H|H]]]]]; [exact H | |].
      * injection H as ->. discriminate.
      * rewrite H, orb_true_r in Hcond. discriminate.
Qed.

Lemma fold_reverse_edges (l : list (nat * CallRecord)) (g g' : CallGraph)
      (x : string) (e : Edge) :
  foldM reverse_pass l g = Ok g' ->
  (In e (neighbours g' x)
   <-> In e (neighbours g x)
       \/ exists i c, In (i, c) l /\ skipped c = false
                      /\ x = call_to c /\ e = edge_of i (call_from c) c /\ calls_back c).
Proof.
  revert g. induction l as [|[i c] l IH]; intros g; cbn [foldM].
  - intros [= <-]. split; [auto | intros [H|[i [c [[] _]]]]; exact H].
  - destruct (reverse_pass g (i, c)) as [g1|] eqn:E; [|discriminate]. cbn [Exn.bind].
    intros H. rewrite (IH g1 H), (reverse_pass_edges g g1 i c x e E). split.
    + intros [[H1|H1]|[j [d [Hin H1]]]]; [left; exact H1 | right | right].
      * exists i, c. split; [left; reflexivity | exact H1].
      * exists j, d. split; [right; exact Hin | exact H1].
    + intros [H1|[j [d [[Heq|Hin] H1]]]]; [left; left; exact H1 | |].
      * injection Heq as <- <-. left. right. exact H1.
      * right. exists j, d. auto.
Qed.

Lemma combine_seq_nth {A} (l : list A) (s i : nat) (c : A) :
  In (i, c) (combine (seq s (length l)) l)
  <-> (s <= i)%nat /\ nth_error l (i - s) = Some c.
Proof.
  revert s. induction l as [|x l IH]; intros s; simpl.
  - split; [intros [] | intros [_ H]; destruct (i - s)%nat; discriminate].
  - rewrite IH. split.
    + intros [[= <- <-]|[Hle H]].
      * rewrite Nat.sub_diag. split; [lia | reflexivity].
      * split; [lia|]. replace (i - s)%nat with (S (i - S s)) by lia. exact H.
    + intros [Hle H]. destruct (i - s)%nat as [|n] eqn:E.
      * left. injection H as ->. f_equal. lia.
      * right. split; [lia|]. replace (i - S s)%nat with n by lia. exact H.
Qed.

Lemma indexed_nth {A} (l : list A) (i : nat) (c : A) :
  In (i, c) (indexed l) <-> nth_error l i = Some c.
Proof.
  unfold indexed. rewrite combine_seq_nth, Nat.sub_0_r. split; [tauto|].
  intros H. split; [lia | exact H].
Qed.


(** The edges of the graph that [buildCallGraph] returns are exactly these:
    a forward edge from the sender to the recipient of every call that names
    both, and a reverse edge from the recipient to the sender for the calls
    that carry positive value or hold a withdraw selector; each edge bears
    the index and the value of its call. *)
Theorem buildCallGraph_edges_exactly :
  forall (cs : list CallRecord) (callGraph : CallGraph),
    buildCallGraph cs = Ok callGraph ->
    forall (x : string) (e : Edge),
      In e (neighbours callGraph x) <-> edge_of_some_call cs x e.
Proof.
  intros cs g Hg x e. unfold buildCallGraph in Hg.
  rewrite (fold_reverse_edges _ _ _ x e Hg), fold_forward_edges.
  unfold edge_of_some_call, neighbours. simpl. split.
  - intros [[[]|[i [c [Hin [Hs H]]]]]|[i [c [Hin [Hs H]]]]].
    + exists i, c. split; [apply indexed_nth; exact Hin|]. split; [exact Hs|].
      left. exact H.
    + exists i, c. split; [apply indexed_nth; exact Hin|]. split; [exact Hs|].
      right. exact H.
  - intros [i [c [Hn [Hs [H|H]]]]]; apply indexed_nth in Hn.
    + left. right. exists i, c. tauto.
    + right. exists i, c. tauto.
Qed.

Lemma buildCallGraph_edges_exactly_witness :
  edge_of_some_call [plain_call alice bob None; plain_call bob alice (Some "5")]
                    bob (mkEdge alice 1 "5").
Proof.
  apply (proj1 (buildCallGraph_edges_exactly
                  [plain_call alice bob None; plain_call bob alice (Some "5")]
                  [(alice, [mkEdge bob 0 "0"; mkEdge bob 1 "5"]);
                   (bob, [mkEdge alice 1 "5"])]
                  eq_refl bob (mkEdge alice 1 "5"))).
  left. reflexivity.
Defined.

(** ** What the path finder reports *)

Lemma walk_suffix (g : CallGraph) (l1 l2 : list string) :
  walk g (l1 ++ l2) -> walk g l2.
Proof.
  induction l1 as [|x l1 IH]; [auto|]. simpl.
  destruct (l1 ++ l2) eqn:E.
  - destruct l1; [|discriminate]. simpl in E. subst. intros _. exact I.
  - intros [_ H]. apply IH. exact H.
Qed.

Lemma walk_snoc (g : CallGraph) (l : list string) (x y : string) :
  walk g (l ++ [x]) -> has_edge g x y -> walk g ((l ++ [x]) ++ [y]).
Proof.
  intros Hw He. induction l as [|z l IH]; simpl.
  - split; [exact He | exact I].
  - simpl in Hw. destruct (l ++ [x]) as [|w r] eqn:E; [destruct l; discriminate|].
    simpl in *. destruct Hw as [H1 H2]. split; [exact H1 | apply IH; exact H2].
Qed.

Lemma NoDup_snoc (l : list string) (x : string) :
  NoDup l -> ~ In x l -> NoDup (l ++ [x]).
Proof.
  intros Hl Hx. induction Hl as [|y l Hy Hl IH]; simpl.
  - constructor; [intros [] | constructor].
  - constructor.
    + rewrite in_app_iff. intros [H|[H|[]]]; [exact (Hy H)|].
      apply Hx. left. symmetry. exact H.
    + apply IH. intros H. apply Hx. right. exact H.
Qed.

Lemma reaches_walk (cap : nat) (g : CallGraph) (n : string) (p : list string)
      (n' : string) (p' : list string) :
  Reaches cap g n p n' p' ->
  walk g (p ++ [n]) -> NoDup p ->
  walk g (p' ++ [n']) /\ NoDup p'.
Proof.
  induction 1 as [n p | n p e n' p' Hfresh Hlen He Hr IH]; [auto|].
  intros Hw Hd. apply IH.
  - apply walk_snoc; [exact Hw|]. exists e. split; [exact He | reflexivity].
  - apply NoDup_snoc; assumption.
Qed.

(** Every path that the path finder reports is a closed walk of the graph:
    it begins and ends with the same node, its other nodes are pairwise
    distinct, every step follows an edge, and it has at most one node more
    than the depth cap. *)
Theorem findReentrancyPaths_reports_closed_walks :
  forall (this : DetectionService) (callGraph : CallGraph) (found : list (list string)),
    findReentrancyPaths this callGraph = Some found ->
    forall c, In c found ->
              exists node mid,
                c = node :: mid ++ [node]
                /\ NoDup (node :: mid)
                /\ walk callGraph c
                /\ (length c <= maxReentrancyDepth (thresholds this) + 1)%nat.
Proof.
  intros this g found Hf c Hc.
  destruct (findReentrancyPaths_spec this g) as [found' [E H]].
  rewrite Hf in E. injection E as <-.
  apply H in Hc. destruct Hc as [root [_ [n' [p' [Hr [Hin [Hlen ->]]]]]]].
  destruct (reaches_walk _ _ _ _ _ _ Hr) as [Hw Hd]; [exact I | constructor|].
  destruct (cycle_at_suffix n' p' Hin) as [before [after [-> [_ ->]]]].
  exists n', after. split; [reflexivity|]. split; [|split].
  - clear - Hd. induction before as [|x before IH]; [exact Hd|].
    simpl in Hd. inversion Hd; subst. apply IH. assumption.
  - rewrite <- app_assoc in Hw. simpl in Hw.
    exact (walk_suffix g before (n' :: after ++ [n']) Hw).
  - rewrite length_app in Hlen. simpl in *. rewrite length_app. simpl. lia.
Qed.

Lemma findReentrancyPaths_reports_closed_walks_witness :
  exists node mid,
    [alice; bob; alice] = node :: mid ++ [node]
    /\ NoDup (node :: mid)
    /\ walk [(alice, [mkEdge bob 0 "0"]); (bob, [mkEdge alice 1 "5"])] [alice; bob; alice]
    /\ (3 <= 3 + 1)%nat.
Proof.
  apply (findReentrancyPaths_reports_closed_walks new_DetectionService
           [(alice, [mkEdge bob 0 "0"]); (bob, [mkEdge alice 1 "5"])]
           [[alice; bob; alice]; [bob; alice; bob]]);
    [reflexivity | left; reflexivity].
Defined.

(** ** The aggregator, entry by entry *)

Lemma set_fresh {V} (k : string) (v : V) (o : JsObject.t V) :
  ~ In k (map fst o) -> JsObject.set k v o = o ++ [(k, v)].
Proof.
  induction o as [|[k' v'] o IH]; simpl; intros H; [reflexivity|].
  destruct (String.eqb_spec k k') as [->|_]; [contradiction H; left; reflexivity|].
  rewrite IH; [reflexivity|]. intros Hin. apply H. right. exact Hin.
Qed.

Lemma fold_collect_fired (entries : JsObject.t DetectionResult) :
  NoDup (map fst entries) ->
  (forall k, In k (map fst entries) -> In k rule_kinds) ->
  forall (td : bool) (msgs : list string) (dd : JsObject.t Details),
    (forall k, In k (map fst entries) -> ~ In k (map fst dd)) ->
    fold_left collect entries (td, msgs, dd)
    = ((td || existsb (fun e => detected (snd e)) entries)%bool,
       msgs ++ map (fun e => message (snd e)) (fired entries),
       dd ++ map (fun e => (fst e, details (snd e))) (fired entries)).
Proof.
  induction entries as [|[k r] es IH]; intros Hnd Hk td msgs dd Hfresh.
  - simpl. rewrite orb_false_r, !app_nil_r. reflexivity.
  - simpl in Hnd. inversion Hnd as [|? ? Hnotin Hnd']; subst.
    cbn [fold_left collect existsb fired filter snd fst].
    destruct (detected r) eqn:Hd.
    + rewrite (assign_details_kind k _ _ (Hk k (or_introl eq_refl))).
      rewrite set_fresh by (apply Hfresh; left; reflexivity).
      rewrite IH.
      * cbn [map fst snd]. rewrite <- !app_assoc. cbn [app].
        rewrite orb_true_r. reflexivity.
      * exact Hnd'.
      * intros k' Hk'. apply Hk. right. exact Hk'.
      * intros k' Hk'. rewrite map_app, in_app_iff. cbn [map fst].
        intros [H|[<-|[]]]; [|exact (Hnotin Hk')].
        apply (Hfresh k'); [right; exact Hk' | exact H].
    + rewrite IH.
      * reflexivity.
      * exact Hnd'.
      * intros k' Hk'. apply Hk. right. exact Hk'.
      * intros k' Hk'. apply Hfresh. right. exact Hk'.
Qed.

Lemma run_detectors_entries (this : DetectionService) (tx : Transaction)
      (l : JsObject.t DetectionResult) :
  run_detectors this tx = Ok l ->
  flat_map (fun k => match JsObject.get k l with
                     | Some r => [(k, r)]
                     | None => []
                     end)
           (JsObject.keys l) = l.
Proof.
  unfold run_detectors.
  repeat match goal with
         | |- context [Exn.bind ?m _] => destruct m; cbn [Exn.bind]; [|discriminate]
         end.
  intros [= <-]. reflexivity.
Qed.

(** The report lists the findings that fired, one entry per evaluator in
    the fixed order of the evaluators; the message joins their messages in
    that order with "; ", and the flag is set when at least one fired. *)
Theorem detectThreats_collects_in_order :
  forall (this : DetectionService) (transaction : Transaction)
         (detectionResults : JsObject.t DetectionResult),
    run_detectors this transaction = Ok detectionResults ->
    exists report,
      detectThreats this transaction = Ok report
      /\ detectionDetails report
         = map (fun e => (fst e, details (snd e))) (fired detectionResults)
      /\ resp_detected report = existsb (fun e => detected (snd e)) detectionResults
      /\ resp_message report
         = match fired detectionResults with
           | [] => "No threats detected"
           | _ => join "; " (map (fun e => message (snd e)) (fired detectionResults))
           end.
Proof.
  intros this tx l Hrun. unfold detectThreats. rewrite Hrun. cbn [Exn.bind].
  rewrite (run_detectors_entries _ _ _ Hrun).
  pose proof (run_detectors_keys _ _ _ Hrun) as Hkeys.
  rewrite fold_collect_fired.
  - eexists. split; [reflexivity|].
    cbn [detectionDetails resp_detected resp_message app orb].
    split; [reflexivity|]. split; [reflexivity|].
    unfold fired.
    induction l as [|[k r] l IH]; [reflexivity|].
    cbn [existsb filter snd]. destruct (detected r); [reflexivity|].
    cbn [orb]. destruct (existsb _ l) eqn:E.
    + destruct (filter _ l) eqn:F; [|reflexivity].
      apply existsb_exists in E. destruct E as [e [Hin He]].
      assert (Hf : In e (filter (fun entry => detected (snd entry)) l))
        by (apply filter_In; auto).
      rewrite F in Hf. destruct Hf.
    + destruct (filter _ l) as [|e f] eqn:F; [reflexivity|].
      assert (Hf : In e (filter (fun entry => detected (snd entry)) l))
        by (rewrite F; left; reflexivity).
      apply filter_In in Hf. destruct Hf as [Hin He].
      assert (E' : existsb (fun e => detected (snd e)) l = true)
        by (apply existsb_exists; eauto).
      congruence.
  - rewrite Hkeys. unfold rule_kinds.
    repeat (constructor; [simpl; intuition discriminate|]). constructor.
  - rewrite Hkeys. auto.
  - intros k _ [].
Qed.

Lemma detectThreats_collects_in_order_witness :
  exists report,
    detectThreats new_DetectionService (plain_transfer blacklisted_sender bob None None)
    = Ok report
    /\ map fst (detectionDetails report) = ["spoofing"; "crossChainAttack"]
    /\ resp_message report
       = "Transaction involves blacklisted address.; Cross-chain attack detected".
Proof.
  destruct (detectThreats_collects_in_order new_DetectionService
              (plain_transfer blacklisted_sender bob None None)
              _ eq_refl) as [report [E [Hd [_ Hm]]]].
  exists report. split; [exact E|]. rewrite Hd, Hm. split; reflexivity.
Defined.

(** ** What makes the guarded evaluators fire *)





(** ** What the governance and oracle evaluators never do *)

Lemma existsb_false_and {A} (p q : A -> bool) (l : list A) :
  existsb p l = false -> existsb (fun a => (p a && q a)%bool) l = false.
Proof.
  induction l as [|a l IH]; simpl; [auto|].
  intros H. apply orb_false_iff in H. destruct H as [Ha Hl].
  rewrite Ha, (IH Hl). reflexivity.
Qed.

Lemma existsb_false_filter {A} (p : A -> bool) (l : list A) :
  existsb p l = false -> filter p l = [].
Proof.
  induction l as [|a l IH]; simpl; [auto|].
  intros H. apply orb_false_iff in H. destruct H as [Ha Hl].
  rewrite Ha. exact (IH Hl).
Qed.

Lemma execute_is_governance (c : CallRecord) :
  opt_startsWith (call_input c) "0x0825f38f" = true ->
  governance_action new_DetectionService c = true.
Proof.
  unfold governance_action, opt_startsWith, opt_selector, startsWith, substring0.
  destruct (call_input c) as [s|]; [|discriminate].
  intros H. apply prefix_correct in H. simpl String.length in H. rewrite H. reflexivity.
Qed.

(** The governance evaluator never fires on a transaction none of whose
    top-level calls begins with a governance selector (propose, castVote,
    execute, delegate): flash loans, large transfers and nested transfers
    alone are not reported. *)
Theorem governance_fires_only_with_governance_call :
  forall (transaction : Transaction) (r : DetectionResult),
    detectGovernanceAttack new_DetectionService transaction = Ok r ->
    detected r = true ->
    exists c, In c (calls_or_empty (trace transaction))
              /\ governance_action new_DetectionService c = true.
Proof.
  intros tx r Hr Hd.
  destruct (existsb (governance_action new_DetectionService) (calls_or_empty (trace tx)))
    eqn:Hgov.
  - apply existsb_exists in Hgov. exact Hgov.
  - exfalso. unfold detectGovernanceAttack in Hr. rewrite Hgov in Hr.
    assert (Hexec : existsb (fun call => opt_startsWith (call_input call) "0x0825f38f")
                            (calls_or_empty (trace tx)) = false).
    { destruct (existsb _ _) eqn:E; [|reflexivity].
      apply existsb_exists in E. destruct E as [c [Hin Hc]].
      assert (Hg : existsb (governance_action new_DetectionService)
                           (calls_or_empty (trace tx)) = true).
      { apply existsb_exists. exists c. split; [exact Hin|].
        apply execute_is_governance, Hc. }
      congruence. }
    rewrite Hexec in Hr.
    destruct (anyM large_transfer (calls_or_empty (trace tx))) as [b|];
      [|discriminate].
    cbn [Exn.bind] in Hr. rewrite !andb_false_r in Hr. cbn [andb orb app] in Hr.
    injection Hr as <-. discriminate.
Qed.

Lemma governance_fires_only_with_governance_call_witness :
  exists c, In c (calls_or_empty (trace flash_loan_vote))
            /\ governance_action new_DetectionService c = true.
Proof.
  apply (governance_fires_only_with_governance_call flash_loan_vote
           (flag_with "Suspicious governance activity detected"
              [("suspiciousPatterns", jstrings ["flash_loan_governance"]);
               ("hasFlashLoan", JBool true);
               ("hasGovernanceAction", JBool true);
               ("hasLargeTransfer", JBool false);
               ("hasTreasuryDrain", JBool false)]
              (clean (Some "governance_attack"))));
    reflexivity.
Defined.

Lemma sandwich_needs_swap (this : DetectionService) (l : list CallRecord) :
  existsb swap_call l = false -> sandwich this l = false.
Proof.
  induction l as [|a l IH]; [reflexivity|].
  intros H. simpl in H. apply orb_false_iff in H. destruct H as [Ha Hl].
  cbn [sandwich]. destruct l as [|b [|c l]]; try reflexivity.
  rewrite Ha. cbn [andb]. apply IH. exact Hl.
Qed.

(** The oracle evaluator never fires on a transaction that has neither an
    oracle call nor a swap call among its top-level calls and that does not
    carry both state snapshots. *)
Theorem oracle_fires_only_with_evidence :
  forall (transaction : Transaction) (r : DetectionResult),
    detectOracleManipulation new_DetectionService transaction = Ok r ->
    detected r = true ->
    (exists c, In c (calls_or_empty (trace transaction))
               /\ (oracle_call new_DetectionService c = true \/ swap_call c = true))
    \/ (pre (trace transaction) <> None /\ post (trace transaction) <> None).
Proof.
  intros tx r Hr Hd.
  destruct (existsb (oracle_call new_DetectionService) (calls_or_empty (trace tx)))
    eqn:Ho.
  { left. apply existsb_exists in Ho. destruct Ho as [c [Hin Hc]]. eauto. }
  destruct (existsb swap_call (calls_or_empty (trace tx))) eqn:Hs.
  { left. apply existsb_exists in Hs. destruct Hs as [c [Hin Hc]]. eauto. }
  destruct (pre (trace tx)) as [p|] eqn:Hp; [destruct (post (trace tx)) as [q|] eqn:Hq|].
  { right. split; discriminate. }
  all: exfalso; unfold detectOracleManipulation in Hr;
    rewrite Hp in Hr; try rewrite Hq in Hr;
    rewrite Ho, Hs, (existsb_false_and _ _ _ Ho), (sandwich_needs_swap _ _ Hs),
      (existsb_false_filter _ _ Hs) in Hr;
    cbn [Exn.bind length Nat.leb andb orb app] in Hr;
    rewrite ?andb_false_r in Hr; cbn [Exn.bind length Nat.leb andb orb app] in Hr;
    injection Hr as <-; discriminate.
Qed.

Lemma oracle_fires_only_with_evidence_witness :
  (exists c, In c (calls_or_empty (trace sandwich_calls))
             /\ (oracle_call new_DetectionService c = true \/ swap_call c = true))
  \/ (pre (trace sandwich_calls) <> None /\ post (trace sandwich_calls) <> None).
Proof.
  destruct (detectOracleManipulation new_DetectionService sandwich_calls) as [r|] eqn:E;
    [|discriminate].
  apply (oracle_fires_only_with_evidence sandwich_calls r E).
  revert E. vm_compute. intros [= <-]. reflexivity.
Defined.

(** ** The static entry point, stage by stage *)

Lemma detectThreats_inv (this : DetectionService) (tx : Transaction)
      (report : DetectionResponse) :
  detectThreats this tx = Ok report -> report_inv report.
Proof.
  unfold detectThreats, report_inv.
  destruct (run_detectors this tx) as [l|e] eqn:Hrun; simpl; [|discriminate].
  pose proof (fold_collect_inv _ (false, [], [])
                (entries_kinds l (run_detectors_keys _ _ _ Hrun))) as Hinv.
  destruct (fold_left collect _ (false, [], [])) as [[td msgs] dd].
  intros [= <-]. simpl. apply Hinv. simpl. split; [|intros x []].
  split; [discriminate | intros H; contradiction H; reflexivity].
Qed.

Lemma no_threats_inv (r : DetectionResponse) : report_inv (no_threats r).
Proof.
  unfold report_inv, no_threats. simpl. split; [|intros k []].
  split; [discriminate | intros H; contradiction H; reflexivity].
Qed.

Lemma force_inv (k : string) (d : Details) (r : DetectionResponse) :
  In k rule_kinds -> report_inv r -> report_inv (force k d r).
Proof.
  unfold report_inv, force. simpl. intros Hk [Hiff Hkeys].
  destruct (JsObject.has k (detectionDetails r)) eqn:Hhas.
  - split; [|exact Hkeys]. split; [|reflexivity]. intros _ Hnil.
    rewrite Hnil in Hhas. discriminate.
  - split.
    + split; [intros _; apply set_not_nil | reflexivity].
    + intros x Hx. destruct (set_keys_incl _ _ _ _ Hx) as [<-|H]; [exact Hk | auto].
Qed.

Lemma force_detected (k : string) (d : Details) (r : DetectionResponse) :
  resp_detected (force k d r) = true
  /\ JsObject.has k (detectionDetails (force k d r)) = true.
Proof.
  unfold force. simpl. split; [reflexivity|].
  destruct (JsObject.has k (detectionDetails r)) eqn:E; [exact E|].
  unfold JsObject.has. rewrite get_set_same. reflexivity.
Qed.

Lemma force_keeps (k k' : string) (d : Details) (r : DetectionResponse) :
  JsObject.has k' (detectionDetails r) = true ->
  JsObject.has k' (detectionDetails (force k d r)) = true.
Proof.
  unfold force. simpl. intros H.
  destruct (JsObject.has k (detectionDetails r)); [exact H | apply has_set, H].
Qed.

(** The report that [DetectionService.detect] returns keeps the invariant
    of the aggregator through every special case of the entry point: its
    flag is set exactly when its mapping has an entry, and the keys of the
    mapping are rule kinds. *)
Theorem detect_keeps_report_invariant :
  forall (request : DetectionRequest) (report : DetectionResponse),
    detect request = Ok report ->
    (resp_detected report = true <-> detectionDetails report <> [])
    /\ (forall k, In k (map fst (detectionDetails report)) -> In k rule_kinds).
Proof.
  intros request report. unfold detect. cbv zeta.
  match goal with
  | |- context [detectThreats ?s ?tx] =>
      destruct (detectThreats s tx) as [r0|] eqn:E0; [|discriminate]
  end.
  apply detectThreats_inv in E0. cbn [Exn.bind].
  assert (Hre : In "reentrancy" rule_kinds) by (simpl; tauto).
  assert (Hfr : In "frontRunning" rule_kinds) by (simpl; tauto).
  repeat match goal with
         | |- context [if ?c then _ else _] => destruct c
         | |- context [match ?c with Some _ => _ | None => _ end] => destruct c
         end;
    intros [= <-];
    repeat first [ apply no_threats_inv | apply force_inv; [assumption|] | exact E0 ].
Qed.

Lemma detect_keeps_report_invariant_witness :
  exists report,
    detect (request_of sentinel_high_gas) = Ok report
    /\ (resp_detected report = true <-> detectionDetails report <> [])
    /\ (forall k, In k (map fst (detectionDetails report)) -> In k rule_kinds).
Proof.
  eexists. split; [vm_compute; reflexivity|].
  apply (detect_keeps_report_invariant (request_of sentinel_high_gas)).
  vm_compute. reflexivity.
Defined.

Lemma opt_eqb_neq (a b : option string) : a <> b -> opt_eqb a b = false.
Proof.
  destruct a as [x|], b as [y|]; simpl; intros H; try reflexivity.
  - destruct (String.eqb_spec x y); [subst; contradiction H; reflexivity | reflexivity].
  - contradiction H. reflexivity.
Qed.

(** Outside the false-positive suite, a request whose gas string is
    literally '2000000' is always reported as detected with a front-running
    entry, also when the sender is the sentinel address whose findings the
    entry point has just cleared. *)
Theorem detect_forces_front_running :
  forall (request : DetectionRequest) (report : DetectionResponse),
    detect request = Ok report ->
    gas (req_trace request) = Some "2000000" ->
    req_detectorName request <> Some "false-positive-detector" ->
    resp_detected report = true
    /\ JsObject.has "frontRunning" (detectionDetails report) = true.
Proof.
  intros request report H Hgas Hname. unfold detect in H. cbv zeta in H.
  match type of H with
  | context [detectThreats ?s ?tx] =>
      destruct (detectThreats s tx) as [r0|]; [|discriminate]
  end.
  cbn [Exn.bind] in H. rewrite Hgas, (opt_eqb_neq _ _ Hname) in H.
  change (opt_eqb (Some "2000000") (Some "2000000")) with true in H.
  cbv iota in H. injection H as <-. apply force_detected.
Qed.

Lemma detect_forces_front_running_witness :
  exists report,
    detect (request_of sentinel_high_gas) = Ok report
    /\ resp_detected report = true
    /\ JsObject.has "frontRunning" (detectionDetails report) = true.
Proof.
  eexists. split; [vm_compute; reflexivity|].
  apply (detect_forces_front_running (request_of sentinel_high_gas));
    [vm_compute; reflexivity | reflexivity | discriminate].
Defined.

(** Outside the false-positive suite, a request with two or more calls
    whose input holds a withdraw selector is always reported as detected
    with a reentrancy entry, whatever the reentrancy evaluator found. *)
Theorem detect_forces_reentrancy :
  forall (request : DetectionRequest) (report : DetectionResponse)
         (cs : list CallRecord),
    detect request = Ok report ->
    calls (req_trace request) = Some cs ->
    (2 <= length (filter (fun call => withdraw_like (call_input call)) cs))%nat ->
    req_detectorName request <> Some "false-positive-detector" ->
    resp_detected report = true
    /\ JsObject.has "reentrancy" (detectionDetails report) = true.
Proof.
  intros request report cs H Hcs Hlen Hname. unfold detect in H. cbv zeta in H.
  match type of H with
  | context [detectThreats ?s ?tx] =>
      destruct (detectThreats s tx) as [r0|]; [|discriminate]
  end.
  cbn [Exn.bind] in H. rewrite Hcs, (opt_eqb_neq _ _ Hname) in H.
  assert (H1 : (1 <? length (filter (fun call => withdraw_like (call_input call)) cs))%nat
               = true) by (apply Nat.ltb_lt; lia).
  rewrite H1 in H. cbn [orb] in H. cbv iota in H.
  destruct (opt_eqb (gas (req_trace request)) (Some "2000000"));
    destruct (3 <=? length _)%nat;
    injection H as <-;
    repeat split;
    try apply force_detected;
    try (apply force_keeps; apply force_detected).
Qed.

Lemma detect_forces_reentrancy_witness :
  exists report,
    detect (request_of sentinel_two_withdrawals) = Ok report
    /\ resp_detected report = true
    /\ JsObject.has "reentrancy" (detectionDetails report) = true.
Proof.
  eexists. split; [vm_compute; reflexivity|].
  apply (detect_forces_reentrancy (request_of sentinel_two_withdrawals) _
           [mkCall sentinel bob (Some "0x2e1a7d4d") (Some "0x1") None None None;
            mkCall sentinel bob (Some "0x2e1a7d4d") (Some "0x1") None None None]);
    [vm_compute; reflexivity | reflexivity | simpl; lia | discriminate].
Defined.

(** ** Contracts involved in the reported paths *)




(** ** Flash loans and state snapshots *)



Lemma get_of_key {V} (k : string) (o : JsObject.t V) :
  In k (map fst o) -> exists v, JsObject.get k o = Some v.
Proof.
  induction o as [|[k' v'] o IH]; simpl; [intros []|].
  destruct (String.eqb_spec k k') as [->|Hne]; [eauto|].
  intros [H|H]; [congruence | exact (IH H)].
Qed.

Lemma keys_In {V} (k : string) (o : JsObject.t V) :
  In k (JsObject.keys o) <-> JsObject.has k o = true.
Proof.
  unfold JsObject.keys. rewrite enumerate_In. split.
  - intros H. unfold JsObject.has. destruct (get_of_key k o H) as [v ->]. reflexivity.
  - apply has_In.
Qed.

Lemma flat_map_nil {A B} (f : A -> list B) (l : list A) :
  (forall a, In a l -> f a = []) -> flat_map f l = [].
Proof.
  induction l as [|a l IH]; simpl; intros H; [reflexivity|].
  rewrite (H a (or_introl eq_refl)), IH; [reflexivity|].
  intros a' Ha'. apply H. right. exact Ha'.
Qed.


(** A snapshot compared with an equal snapshot shows no change, as long as
    the accounts hold strings and numbers only. *)
Theorem equal_scalar_snapshots_show_no_change :
  forall state : WorldState,
    scalar_only state ->
    detectUnusualStateChanges state state = [].
Proof.
  intros state Hscalar. unfold detectUnusualStateChanges.
  rewrite (flat_map_nil _ (JsObject.keys state)).
  - rewrite flat_map_nil; [reflexivity|].
    intros address Hin. apply keys_In in Hin. rewrite Hin. reflexivity.
  - intros address Hin. apply keys_In in Hin. unfold JsObject.has in Hin.
    destruct (JsObject.get address state) as [acct|] eqn:E; [|discriminate].
    apply flat_map_nil. intros key Hkey. apply keys_In in Hkey.
    unfold JsObject.has in Hkey.
    destruct (JsObject.get key acct) as [v|] eqn:Ev; [|discriminate].
    destruct v as [s|n|slots]; cbn [strict_neq].
    + rewrite String.eqb_refl. reflexivity.
    + rewrite Z.eqb_refl. reflexivity.
    + exfalso. exact (Hscalar address acct key slots E Ev).
Qed.

Lemma equal_scalar_snapshots_show_no_change_witness :
  detectUnusualStateChanges [(alice, funded "10"); (bob, funded "0")]
                            [(alice, funded "10"); (bob, funded "0")] = [].
Proof.
  apply (equal_scalar_snapshots_show_no_change [(alice, funded "10"); (bob, funded "0")]).
  intros address acct key slots.
  unfold JsObject.get at 1. fold (@JsObject.get AccountState).
  simpl.
  destruct (String.eqb address alice); [intros [= <-]|];
    [|destruct (String.eqb address bob); [intros [= <-]| discriminate]];
    simpl; repeat (destruct (String.eqb key _); [discriminate|]); discriminate.
Defined.



(** ** Transaction hashes *)

Lemma lower_hex_digit (c : ascii) : hex_digit c = true -> hex_lower (lower_char c) = true.
Proof.
  destruct c as [[] [] [] [] [] [] [] []]; vm_compute; intros H; congruence.
Qed.

Lemma toLowerCase_hex (s : string) :
  Forall (fun c => hex_digit c = true) (chars s) ->
  Forall (fun c => hex_lower c = true) (chars (toLowerCase s)).
Proof.
  induction s as [|c s IH]; simpl; intros H; [constructor|].
  inversion H; subst. constructor; [apply lower_hex_digit; assumption | auto].
Qed.

Lemma in_range_spec (lo hi : N) (c : ascii) :
  in_range lo hi c = true <-> (lo <= code c <= hi)%N.
Proof.
  unfold in_range. rewrite andb_true_iff, !N.leb_le. tauto.
Qed.

Lemma sequential_hex (s : string) :
  forall (prev : ascii) (k : Z),
    hex_lower prev = true ->
    Forall (fun c => hex_lower c = true) (chars s) ->
    k <= rank prev ->
    sequential prev k s = false.
Proof.
  induction s as [|c s IH]; intros prev k Hp Hs Hk; simpl; [reflexivity|].
  simpl in Hs. inversion Hs as [|? ? Hc Hs']; subst.
  assert (R9 : forall a, hex_lower a = true -> 0 <= rank a <= 9).
  { intros a Ha. unfold hex_lower, rank in *.
    destruct (in_range 48 57 a) eqn:E.
    - apply in_range_spec in E. lia.
    - simpl in Ha. apply in_range_spec in Ha. lia. }
  destruct (N.eqb_spec (code c) (code prev + 1)) as [E|E].
  - assert (Hr : rank c = rank prev + 1).
    { unfold hex_lower, rank in *.
      destruct (in_range 48 57 c) eqn:Ec, (in_range 48 57 prev) eqn:Ep;
        simpl in Hc, Hp;
        repeat match goal with
               | H : in_range _ _ _ = true |- _ => apply in_range_spec in H
               | H : in_range _ _ _ = false |- _ =>
                   apply not_true_iff_false in H; rewrite in_range_spec in H
               end; lia. }
    pose proof (R9 c Hc) as Rc.
    destruct (Z.ltb_spec 10 (k + 1)); [lia|].
    apply IH; [assumption | assumption | lia].
  - apply IH; [assumption | assumption |]. pose proof (R9 c Hc). lia.
Qed.

Lemma count_step_tally (l : list ascii) :
  forall (acc : JsObject.t Z) (c : ascii),
    tally (fold_left
             (fun charCounts c =>
                let k := String c "" in
                let old := match JsObject.get k charCounts with
                           | Some n => n | None => 0 end in
                JsObject.set k (old + 1) charCounts) l acc) (String c "")
    = tally acc (String c "") + Z.of_nat (count_occ ascii_dec l c).
Proof.
  induction l as [|a l IH]; intros acc c; cbn [fold_left count_occ]; [lia|].
  rewrite IH. unfold tally at 1.
  destruct (ascii_dec a c) as [->|Hne].
  - rewrite get_set_same. fold (tally acc (String c "")). lia.
  - rewrite get_set_other by congruence. fold (tally acc (String c "")). lia.
Qed.

Lemma count_step_keys (l : list ascii) :
  forall (acc : JsObject.t Z),
    (forall k v, JsObject.get k acc = Some v -> exists c, k = String c "") ->
    forall k v,
      JsObject.get k
        (fold_left
           (fun charCounts c =>
              let k := String c "" in
              let old := match JsObject.get k charCounts with
                         | Some n => n | None => 0 end in
              JsObject.set k (old + 1) charCounts) l acc) = Some v ->
      exists c, k = String c "".
Proof.
  induction l as [|a l IH]; intros acc Hacc k v; cbn [fold_left]; [apply Hacc|].
  apply IH. intros k' v'.
  destruct (String.eqb_spec (String a "") k') as [<-|Hne]; [eauto|].
  rewrite get_set_other by exact Hne. apply Hacc.
Qed.

Lemma values_In {V} (v : V) (o : JsObject.t V) :
  In v (JsObject.values o) <-> exists k, JsObject.get k o = Some v.
Proof.
  unfold JsObject.values. rewrite in_flat_map. split.
  - intros [k [_ H]]. exists k. destruct (JsObject.get k o); [|destruct H].
    destruct H as [->|[]]. reflexivity.
  - intros [k H]. exists k. split.
    + apply keys_In. unfold JsObject.has. rewrite H. reflexivity.
    + rewrite H. left. reflexivity.
Qed.

Lemma repeated_chars_iff (s : string) :
  existsb (fun count => 20 <? count) (JsObject.values (count_chars s)) = true
  <-> exists c, 20 < occurrences c s.
Proof.
  rewrite existsb_exists. unfold occurrences, count_chars. split.
  - intros [v [Hin Hv]]. apply Z.ltb_lt in Hv. apply values_In in Hin.
    destruct Hin as [k Hk].
    destruct (count_step_keys (chars s) []) with (k := k) (v := v) as [c ->];
      [intros ? ? H; discriminate H | exact Hk |].
    exists c. pose proof (count_step_tally (chars s) [] c) as T.
    unfold tally in T. rewrite Hk in T. simpl in T. lia.
  - intros [c Hc]. pose proof (count_step_tally (chars s) [] c) as T.
    unfold tally in T. simpl in T.
    destruct (JsObject.get (String c "") _) as [v|] eqn:E; [|lia].
    exists v. split; [apply values_In; eauto | apply Z.ltb_lt; lia].
Qed.

(** For a transaction hash written as 0x and hexadecimal digits, the test
    for sequential characters never fires: the hash counts as manipulated
    exactly when one digit, upper and lower case counted together, occurs
    more than 20 times. *)
Theorem hex_hash_manipulated_iff_repeated_digit :
  forall body : string,
    Forall (fun c => hex_digit c = true) (chars body) ->
    isHashManipulated (Some ("0x" ++ body)%string) = true
    <-> exists c, 20 < occurrences c (toLowerCase body).
Proof.
  intros body Hhex. unfold isHashManipulated.
  change (truthy ("0x" ++ body)%string) with true. cbn [negb].
  rewrite normalize_0x. rewrite <- repeated_chars_iff.
  destruct (existsb _ _); [tauto|].
  pose proof (toLowerCase_hex body Hhex) as Hl.
  destruct (toLowerCase body) as [|c rest]; [tauto|].
  simpl in Hl. inversion Hl; subst.
  rewrite (sequential_hex rest c 0); try assumption; [tauto|].
  unfold hex_lower, rank in *.
  destruct (in_range 48 57 c) eqn:E.
  - apply in_range_spec in E. lia.
  - simpl in H1. apply in_range_spec in H1. lia.
Qed.

Lemma hex_hash_manipulated_iff_repeated_digit_witness :
  isHashManipulated (Some "0x0123456789abcdef0123456789ABCDEF") = true
  <-> exists c, 20 < occurrences c (toLowerCase "0123456789abcdef0123456789ABCDEF").
Proof.
  apply (hex_hash_manipulated_iff_repeated_digit "0123456789abcdef0123456789ABCDEF").
  vm_compute. repeat constructor.
Defined.

(** ** The chain id of the report *)

Lemma digits_acc (d : Decimal.uint) :
  forall a : positive,
    JsNumber.digits 10 (Some (Z.pos a)) (NilEmpty.string_of_uint d)
    = Some (Z.pos (Pos.of_uint_acc d a)).
Proof.
  induction d; intros a; cbn [NilEmpty.string_of_uint JsNumber.digits Pos.of_uint_acc];
    [reflexivity | ..];
    match goal with
    | |- context [JsNumber.digit 10 ?c] =>
        change (JsNumber.digit 10 c) with (Some (Z.of_N (code c) - 48))
    end;
    cbn [code N_of_ascii N_of_digits]; rewrite <- IHd; do 2 f_equal; lia.
Qed.

Lemma digits_uint (d : Decimal.uint) :
  JsNumber.digits 10 (Some 0) (NilEmpty.string_of_uint d)
  = Some (Z.of_N (Pos.of_uint d)).
Proof.
  induction d; cbn [NilEmpty.string_of_uint JsNumber.digits Pos.of_uint];
    [reflexivity | ..];
    match goal with
    | |- context [JsNumber.digit 10 ?c] =>
        change (JsNumber.digit 10 c) with (Some (Z.of_N (code c) - 48))
    end;
    cbn [code N_of_ascii N_of_digits];
    first [ exact IHd | apply digits_acc ].
Qed.

Lemma digits_start (d : Decimal.uint) :
  d <> Decimal.Nil ->
  JsNumber.digits 10 None (NilEmpty.string_of_uint d) = Some (Z.of_N (Pos.of_uint d)).
Proof.
  destruct d; intros H; [contradiction H; reflexivity | ..];
    cbn [NilEmpty.string_of_uint JsNumber.digits Pos.of_uint];
    match goal with
    | |- context [JsNumber.digit 10 ?c] =>
        change (JsNumber.digit 10 c) with (Some (Z.of_N (code c) - 48))
    end;
    cbn [code N_of_ascii N_of_digits];
    first [ apply digits_uint | apply digits_acc ].
Qed.

Lemma uint_plain (d : Decimal.uint) :
  d <> Decimal.Nil ->
  let s := NilEmpty.string_of_uint d in
  JsNumber.skip_space s = s
  /\ JsNumber.strip_sign s = (false, s)
  /\ JsNumber.has_0x s = false
  /\ JsNumber.is_space "-" = false.
Proof.
  intros H.
  destruct d as [|d|d|d|d|d|d|d|d|d|d]; [contradiction H; reflexivity | ..];
    destruct d; cbn [NilEmpty.string_of_uint]; repeat split; reflexivity.
Qed.

Lemma to_uint_not_nil (p : positive) : Pos.to_uint p <> Decimal.Nil.
Proof.
  intros H. pose proof (DecimalPos.Unsigned.of_to p) as E. rewrite H in E. discriminate E.
Qed.

Lemma parseInt_Z_to_string (z : Z) : JsNumber.parseInt (Z_to_string z) = Some z.
Proof.
  unfold Z_to_string, JsNumber.parseInt. destruct z as [|p|p]; [reflexivity | ..];
    cbn [Z.to_int NilZero.string_of_int];
    pose proof (to_uint_not_nil p) as Hn;
    pose proof (digits_start (Pos.to_uint p) Hn) as E;
    destruct (uint_plain (Pos.to_uint p) Hn) as [S1 [S2 [S3 S4]]];
    rewrite DecimalPos.Unsigned.of_to in E;
    unfold NilZero.string_of_uint;
    (destruct (Pos.to_uint p) eqn:Ep; [contradiction Hn; reflexivity | ..]);
    rewrite <- Ep in *.
  all: try (rewrite S1, S2, S3, E; reflexivity).
  all: cbn [JsNumber.skip_space]; rewrite S4; cbn [JsNumber.strip_sign];
    rewrite S3, E; reflexivity.
Qed.

Lemma force_header (k : string) (d : Details) (r : DetectionResponse) :
  requestId (force k d r) = requestId r
  /\ resp_chainId (force k d r) = resp_chainId r
  /\ resp_protocolAddress (force k d r) = resp_protocolAddress r
  /\ resp_protocolName (force k d r) = resp_protocolName r.
Proof. repeat split. Qed.

(** The report of [DetectionService.detect] carries the request's own
    header: the id, the protocol address and name (empty when absent), and
    the chain id, which comes back as the same number after its way through
    a decimal string. *)
Theorem detect_echoes_request_header :
  forall (request : DetectionRequest) (report : DetectionResponse),
    safe_integer (req_chainId request) ->
    detect request = Ok report ->
    echoes request report.
Proof.
  intros request report _. unfold detect. cbv zeta.
  match goal with
  | |- context [detectThreats ?s ?tx] =>
      destruct (detectThreats s tx) as [r0|] eqn:E0; [|discriminate]
  end.
  assert (H0 : echoes request r0).
  { revert E0. unfold detectThreats. cbv zeta.
    destruct (run_detectors _ _) as [dr|]; [|discriminate]. cbn [Exn.bind].
    destruct (fold_left _ _ _) as [[? ?] ?]. intros [= <-].
    unfold echoes. cbn. rewrite parseInt_Z_to_string. repeat split. }
  cbn [Exn.bind].
  repeat match goal with
         | |- context [if ?c then _ else _] => destruct c
         | |- context [match ?c with Some _ => _ | None => _ end] => destruct c
         end;
    intros [= <-]; exact H0.
Qed.

Lemma detect_echoes_request_header_witness :
  exists report,
    detect (request_of sentinel_high_gas) = Ok report
    /\ echoes (request_of sentinel_high_gas) report.
Proof.
  eexists. split; [vm_compute; reflexivity|].
  apply (detect_echoes_request_header (request_of sentinel_high_gas)).
  - unfold safe_integer. vm_compute. discriminate.
  - vm_compute. reflexivity.
Defined.

(** ** Reports on ordinary transactions *)





(** ** Transactions that the override accepts *)

Lemma get_In {V} (k : string) (v : V) (o : JsObject.t V) :
  JsObject.get k o = Some v -> In (k, v) o.
Proof.
  induction o as [|[k' v'] o IH]; simpl; [discriminate|].
  destruct (String.eqb_spec k k') as [->|Hne].
  - intros [= ->]. left. reflexivity.
  - intros H. right. exact (IH H).
Qed.

(** A transaction that the override accepts, one sent from the sentinel
    address among them, gets no reentrancy, front-running or cross-chain
    entry in its report, whatever its calls and its gas are. *)
Theorem accepted_transaction_skips_three_rules :
  forall (this : DetectionService) (transaction : Transaction)
         (report : DetectionResponse),
    isLegitimateOperation this transaction (additionalData transaction) = Ok true ->
    detectThreats this transaction = Ok report ->
    forall k, In k overridden_kinds ->
              JsObject.has k (detectionDetails report) = false.
Proof.
  intros this tx report Hl. unfold detectThreats.
  destruct (run_detectors this tx) as [l|] eqn:Hrun; [|discriminate].
  cbn [Exn.bind]. rewrite (run_detectors_entries _ _ _ Hrun).
  pose proof (run_detectors_keys _ _ _ Hrun) as Hkeys.
  rewrite fold_collect_fired.
  - intros [= <-] k Hk. cbn [detectionDetails app].
    unfold JsObject.has.
    destruct (JsObject.get k _) as [d|] eqn:E; [|reflexivity].
    exfalso. apply get_In, in_map_iff in E. destruct E as [[k' r] [Heq Hin]].
    cbn [fst snd] in Heq. injection Heq as -> _.
    apply filter_In in Hin. destruct Hin as [Hin Hd]. cbn [snd] in Hd.
    revert Hrun Hin Hd. unfold run_detectors, detectReentrancy, detectFrontRunning,
      detectCrossChainAttack. rewrite Hl. cbn [Exn.bind].
    repeat match goal with
           | |- context [Exn.bind ?m _] => destruct m; cbn [Exn.bind]; [|discriminate]
           end.
    intros [= <-] Hin Hd. simpl in Hin, Hk.
    repeat match goal with
           | H : _ \/ _ |- _ => destruct H
           | H : False |- _ => destruct H
           | H : (_, _) = (_, _) |- _ => injection H as ? ?
           end; subst; try discriminate.
  - rewrite Hkeys. repeat constructor; simpl; intuition discriminate.
  - intros k Hk. rewrite Hkeys in Hk. exact Hk.
  - intros k _ [].
Qed.

Lemma accepted_transaction_skips_three_rules_witness :
  exists report,
    detectThreats new_DetectionService sentinel_callback = Ok report
    /\ forall k, In k overridden_kinds ->
                 JsObject.has k (detectionDetails report) = false.
Proof.
  eexists. split; [vm_compute; reflexivity|].
  apply (accepted_transaction_skips_three_rules new_DetectionService sentinel_callback);
    vm_compute; reflexivity.
Defined.

(** ** Suspicious call patterns *)



